(** * forge-e2e-gnumeric: test-case extraction, result matching and runners

    A shallow embedding of [src/types.rs] and [src/runner.rs].

    - [f64] values are SpecFloat's binary64 ([prec = 53], [emax = 1024]);
      Rust's [-], [abs], [<] on [f64] are [SFsub], [SFabs], [SFltb].
    - [str::parse::<f64>] is the correctly rounded decimal reader of
      [core::num::dec2flt]; [to_string] on [f64] is Rust's shortest
      round-trip [Display].
    - [HashMap] iteration is an association list in iteration order
      (the order of a HashMap is unspecified, so theorems quantify over it).
    - Text is ASCII.  A CSV sheet read by [find_result_in_csv] is the list
      of the items [BufRead::lines] yields (a line or the message of its
      read error), or the error message of [File::open]; [parse_batch_csv]
      passes over unreadable lines, so there a file is the list of the
      lines that read, or the [File::open] error.
    - The external processes (tempdir, write, forge, ssconvert) are an
      environment record giving the outcome of every call. *)

From Stdlib Require Import String Ascii List ZArith Bool Lia Permutation.
From Stdlib Require Import QArith Qround SpecFloat.
Import ListNotations.

Open Scope string_scope.

(** ** Rust's [Result] *)

Inductive result (A E : Type) : Type :=
| Ok : A -> result A E
| Err : E -> result A E.
Arguments Ok {A E} _.
Arguments Err {A E} _.

(** ** Binary64 *)

Module F64.

Definition f64 := spec_float.
Definition prec : Z := 53.
Definition emax : Z := 1024.

Definition sub (x y : f64) : f64 := SFsub prec emax x y.
Definition abs (x : f64) : f64 := SFabs x.
Definition ltb (x y : f64) : bool := SFltb x y.

(** [f64::EPSILON] = 2^-52. *)
Definition EPSILON : f64 := S754_finite false (2 ^ 52) (-104).

(** Correctly rounded value of [(-1)^neg * m * 10^e10] (round to nearest,
    ties to even), as [dec2flt] computes it. *)
Definition of_decimal (neg : bool) (m : Z) (e10 : Z) : f64 :=
  if (0 <=? e10)%Z then
    binary_normalize prec emax (cond_Zopp neg (m * 10 ^ e10)) 0 neg
  else
    let '(q, e', l) := SFdiv_core_binary prec emax m 0 (5 ^ (- e10)) (- e10) in
    binary_round_aux prec emax neg q e' l.

End F64.

Import F64.

(** ** ASCII text helpers *)

Module Text.

Definition chr (n : nat) : string := String (ascii_of_nat n) EmptyString.
Definition dq : string := chr 34.
Definition nl : string := chr 10.

Definition digit_of (c : ascii) : option Z :=
  let n := nat_of_ascii c in
  if (48 <=? n)%nat && (n <=? 57)%nat then Some (Z.of_nat (n - 48)) else None.

(** [str::split(',')]: every comma separates, empty pieces are kept. *)
Fixpoint split_on (sep : ascii) (s : string) : list string :=
  match s with
  | EmptyString => [EmptyString]
  | String c s' =>
      if Ascii.eqb c sep then EmptyString :: split_on sep s'
      else match split_on sep s' with
           | [] => [String c EmptyString]
           | p :: ps => String c p :: ps
           end
  end.

Fixpoint drop_while (p : ascii -> bool) (l : list ascii) : list ascii :=
  match l with
  | [] => []
  | c :: l' => if p c then drop_while p l' else l
  end.

(** [str::trim_matches(p)]: drop every leading and trailing match. *)
Definition trim_matches (p : ascii -> bool) (s : string) : string :=
  string_of_list_ascii
    (rev (drop_while p (rev (drop_while p (list_ascii_of_string s))))).

(** [char::is_whitespace] on ASCII: tab, LF, VT, FF, CR and space. *)
Definition is_whitespace (c : ascii) : bool :=
  let n := nat_of_ascii c in ((9 <=? n) && (n <=? 13))%nat || (n =? 32)%nat.

Definition trim (s : string) : string := trim_matches is_whitespace s.

Definition is_dq (c : ascii) : bool := Ascii.eqb c (ascii_of_nat 34).

(** [s.trim_matches(DQ).trim()] (DQ the double quote), applied to every
    CSV cell. *)
Definition clean_cell (s : string) : string := trim (trim_matches is_dq s).

(** [line.split(',').map(|s| s.trim_matches(DQ).trim()).collect()] *)
Definition split_cells (line : string) : list string :=
  map clean_cell (split_on ","%char line).

Fixpoint strip_prefix (p s : string) : option string :=
  match p, s with
  | EmptyString, _ => Some s
  | String a p', String b s' => if Ascii.eqb a b then strip_prefix p' s' else None
  | String _ _, EmptyString => None
  end.

(** [s.replace(COMMA, EMPTY)]: every comma removed. *)
Fixpoint remove_commas (s : string) : string :=
  match s with
  | EmptyString => EmptyString
  | String c s' => if Ascii.eqb c ","%char then remove_commas s' else String c (remove_commas s')
  end.

(** [s.replace(DQ, BACKSLASH DQ)]: a backslash before every double quote. *)
Fixpoint escape_quotes (s : string) : string :=
  match s with
  | EmptyString => EmptyString
  | String c s' =>
      if is_dq c then String "\"%char (String c (escape_quotes s'))
      else String c (escape_quotes s')
  end.

(** Leading decimal digits: their value (accumulated on [acc]), their
    number, and the rest of the text. *)
Fixpoint take_digits (s : string) (acc : Z) (n : nat) : Z * nat * string :=
  match s with
  | String c s' =>
      match digit_of c with
      | Some d => take_digits s' (acc * 10 + d) (S n)
      | None => (acc, n, s)
      end
  | EmptyString => (acc, n, EmptyString)
  end.

(** [str::parse::<usize>] on a 64-bit target: an optional [+], then at
    least one digit and nothing else, below 2^64. *)
Definition parse_usize (s : string) : option N :=
  let body := match s with String "+"%char s' => s' | _ => s end in
  let '(v, n, rest) := take_digits body 0 0 in
  match n, rest with
  | O, _ => None
  | S _, EmptyString => if (v <? 2 ^ 64)%Z then Some (Z.to_N v) else None
  | S _, String _ _ => None
  end.

Fixpoint lower (s : string) : string :=
  match s with
  | EmptyString => EmptyString
  | String c s' =>
      let n := nat_of_ascii c in
      String (if (65 <=? n) && (n <=? 90) then ascii_of_nat (n + 32) else c)%nat
             (lower s')
  end.

End Text.

Import Text.

(** ** [str::parse::<f64>] ([core::num::dec2flt])

    [Sign? ('inf' | 'infinity' | 'nan' | Number)], the words in any case;
    [Number ::= (Digit+ | Digit+ '.' Digit* | Digit* '.' Digit+) Exp?];
    [Exp ::= ('e' | 'E') Sign? Digit+]. *)

Module Dec2Flt.

(** The decimal [Number] part: mantissa and power of ten. *)
Definition parse_number (s : string) : option (Z * Z) :=
  let '(ip, ni, r1) := take_digits s 0 0 in
  let '(m, nf, r2) :=
    match r1 with
    | String "."%char r => take_digits r ip 0
    | _ => (ip, O, r1)
    end in
  match (ni + nf)%nat with
  | O => None
  | S _ =>
      match r2 with
      | EmptyString => Some (m, - Z.of_nat nf)%Z
      | String c r =>
          if Ascii.eqb c "e"%char || Ascii.eqb c "E"%char then
            let '(eneg, r') :=
              match r with
              | String "-"%char r' => (true, r')
              | String "+"%char r' => (false, r')
              | _ => (false, r)
              end in
            match take_digits r' 0 0 with
            | (ev, S _, EmptyString) =>
                Some (m, (if eneg then - ev else ev) - Z.of_nat nf)%Z
            | _ => None
            end
          else None
      end
  end.

Definition parse_f64 (s : string) : option f64 :=
  let '(neg, body) :=
    match s with
    | String "-"%char s' => (true, s')
    | String "+"%char s' => (false, s')
    | _ => (false, s)
    end in
  match body with
  | EmptyString => None
  | _ =>
      match parse_number body with
      | Some (m, e) => Some (of_decimal neg m e)
      | None =>
          let w := lower body in
          if String.eqb w "inf" || String.eqb w "infinity" then Some (S754_infinity neg)
          else if String.eqb w "nan" then Some S754_nan
          else None
      end
  end.

End Dec2Flt.

Import Dec2Flt.

(** ** [impl Display for f64] ([core::fmt::float], [flt2dec])

    Without a precision, [to_string] prints the shortest digit string
    that reads back to the same value (Dragon4 / Grisu shortest mode),
    in positional notation with no exponent and no trailing [.0]. *)

Module Display.

Local Open Scope Q_scope.

Definition q2 (e : Z) : Q := Qpower (2 # 1) e.
Definition q10 (e : Z) : Q := Qpower (10 # 1) e.

Fixpoint digits_aux (fuel : nat) (n : Z) (acc : string) : string :=
  let acc' := String (ascii_of_nat (48 + Z.to_nat (n mod 10))) acc in
  match fuel with
  | O => acc'
  | S f => if (n <? 10)%Z then acc' else digits_aux f (n / 10)%Z acc'
  end.

(** Decimal digits of a nonnegative integer. *)
Definition z_to_string (n : Z) : string :=
  digits_aux (Z.to_nat (Z.log2 n)) n EmptyString.

(** [floor (log10 v)] for [v > 0]. *)
Definition floor_log10 (v : Q) : Z :=
  let e0 := (Z.of_nat (String.length (z_to_string (Qnum v)))
             - Z.of_nat (String.length (z_to_string (Zpos (Qden v)))))%Z in
  if Qle_bool (q10 e0) v then e0 else (e0 - 1)%Z.

(** Shortest digits of the positive finite value [m * 2^e]: the pair
    [(D, j)] with value [D * 10^j].  The rounding interval is the set of
    reals that read back to this value (bounds included when [m] is even);
    digits are generated from the leading position of the upper bound, and
    at the first position where a truncated ([down]) or incremented ([up])
    candidate lies in the interval, the incremented one is taken when it is
    in the interval and the truncated one is not or is not closer
    ([flt2dec::strategy::dragon::format_shortest]). *)
Definition shortest (m : positive) (e : Z) : Z * Z :=
  let v := inject_Z (Zpos m) * q2 e in
  let plus := q2 (e - 1) in
  let minus := if (Pos.eqb m (2 ^ 52) && (e >? -1074))%Z then q2 (e - 2) else q2 (e - 1) in
  let incl := Z.even (Zpos m) in
  let low := v - minus in
  let high := v + plus in
  let k0 := floor_log10 high in
  let k0 := if negb incl && Qeq_bool (q10 k0) high then (k0 - 1)%Z else k0 in
  let fix go (fuel : nat) (j : Z) : Z * Z :=
    let step := q10 j in
    let dlo := Qfloor (v / step) in
    let clo := inject_Z dlo * step in
    let chi := inject_Z (dlo + 1) * step in
    let down := if incl then Qle_bool low clo else negb (Qle_bool clo low) in
    let up := if incl then Qle_bool chi high else negb (Qle_bool high chi) in
    if up && (negb down || Qle_bool step (2 * (v - clo))) then ((dlo + 1)%Z, j)
    else if down then (dlo, j)
    else match fuel with
         | O => (dlo, j)
         | S f => go f (j - 1)%Z
         end
  in go 18%nat k0.

Fixpoint strip_zeros (fuel : nat) (d j : Z) : Z * Z :=
  match fuel with
  | O => (d, j)
  | S f => if (d mod 10 =? 0)%Z then strip_zeros f (d / 10)%Z (j + 1)%Z else (d, j)
  end.

Fixpoint zeros (n : nat) : string :=
  match n with O => EmptyString | S n' => String "0"%char (zeros n') end.

(** [flt2dec::digits_to_dec_str] with [frac_digits = 0]. *)
Definition digits_to_dec_str (d j : Z) : string :=
  let s := z_to_string d in
  let n := Z.of_nat (String.length s) in
  let p := (n + j)%Z in
  if (p <=? 0)%Z then "0." ++ zeros (Z.to_nat (- p)) ++ s
  else if (p <? n)%Z then
    substring 0 (Z.to_nat p) s ++ "." ++ substring (Z.to_nat p) (Z.to_nat (n - p)) s
  else s ++ zeros (Z.to_nat (p - n)).

Definition f64_to_string (x : f64) : string :=
  match x with
  | S754_nan => "NaN"
  | S754_infinity s => if s then "-inf" else "inf"
  | S754_zero s => if s then "-0" else "0"
  | S754_finite s m e =>
      let '(d, j) := shortest m e in
      let '(d, j) := strip_zeros 20 d j in
      (if s then "-" else "") ++ digits_to_dec_str d j
  end.

End Display.

Import Display.

(** ** [src/types.rs] *)

Module Types.

(** [struct Scalar] *)
Record Scalar := mkScalar {
  value : option f64;
  formula : option string;
  expected : option f64;
  skip : option string
}.

(** [enum TableColumn] *)
Inductive TableColumn :=
| Numbers (nums : list f64)
| Strings (strs : list string)
| Formula (f : string).

(** [enum Section]: a [HashMap] is its entries in iteration order. *)
Inductive Section :=
| ScalarGroup (scalars : list (string * Scalar))
| Table (columns : list (string * TableColumn)).

(** [struct TestSpec] *)
Record TestSpec := mkTestSpec {
  forge_version : string;
  sections : list (string * Section)
}.

(** [struct TestCase] ([source_file] as the path text). *)
Record TestCase := mkTestCase {
  tc_name : string;
  tc_formula : string;
  tc_expected : f64;
  tc_source_file : option string;
  tc_forge_version : string
}.

(** [struct SkipCase] *)
Record SkipCase := mkSkipCase {
  sc_name : string;
  sc_reason : string
}.

(** [enum TestResult] *)
Inductive TestResult :=
| Pass (name formula : string) (expected actual : f64)
| Fail (name formula : string) (expected : f64) (actual : option f64) (error : option string)
| Skip (name reason : string).

Definition is_pass (r : TestResult) : bool :=
  match r with Pass _ _ _ _ => true | _ => false end.

Definition is_fail (r : TestResult) : bool :=
  match r with Fail _ _ _ _ _ => true | _ => false end.

Definition result_name (r : TestResult) : string :=
  match r with
  | Pass name _ _ _ | Fail name _ _ _ _ | Skip name _ => name
  end.

(** [section_name.starts_with('_') || section_name == "scenarios"] *)
Definition reserved_section (section_name : string) : bool :=
  String.prefix "_" section_name || String.eqb section_name "scenarios".

(** [format!("{section_name}.{name}")] *)
Definition qualified (section_name name : string) : string :=
  section_name ++ "." ++ name.

(** The body of the inner loop of [extract_test_cases] for one entry. *)
Definition entry_test_cases (spec : TestSpec) (source_file : option string)
    (section_name : string) (entry : string * Scalar) : list TestCase :=
  let '(name, scalar) := entry in
  match skip scalar with
  | Some _ => []
  | None =>
      match formula scalar, expected scalar with
      | Some f, Some e =>
          [mkTestCase (qualified section_name name) f e source_file (forge_version spec)]
      | _, _ => []
      end
  end.

(** [extract_test_cases] *)
Definition extract_test_cases (spec : TestSpec) (source_file : option string) : list TestCase :=
  flat_map (fun '(section_name, section) =>
              if reserved_section section_name then []
              else match section with
                   | ScalarGroup scalars =>
                       flat_map (entry_test_cases spec source_file section_name) scalars
                   | Table _ => []
                   end)
           (sections spec).

(** [extract_test_cases] instrumented with the origin [(section, entry)] of
    every case it pushes; [extract_test_cases] is its second projection
    ([extract_test_cases_traced_snd]). *)
Definition extract_test_cases_traced (spec : TestSpec) (source_file : option string)
    : list ((string * string) * TestCase) :=
  flat_map (fun '(section_name, section) =>
              if reserved_section section_name then []
              else match section with
                   | ScalarGroup scalars =>
                       flat_map (fun entry =>
                                   map (fun tc => ((section_name, fst entry), tc))
                                       (entry_test_cases spec source_file section_name entry))
                                scalars
                   | Table _ => []
                   end)
           (sections spec).

(** [extract_skip_cases] *)
Definition extract_skip_cases (spec : TestSpec) : list SkipCase :=
  flat_map (fun '(section_name, section) =>
              if reserved_section section_name then []
              else match section with
                   | ScalarGroup scalars =>
                       flat_map (fun '(name, scalar) =>
                                   match skip scalar with
                                   | Some reason => [mkSkipCase (qualified section_name name) reason]
                                   | None => []
                                   end) scalars
                   | Table _ => []
                   end)
           (sections spec).

(** One [writeln!] of a column in [extract_table_data_yaml]. *)
Definition render_column (col : string * TableColumn) : string :=
  let '(col_name, col_data) := col in
  match col_data with
  | Numbers nums =>
      "  " ++ col_name ++ ": [" ++ String.concat ", " (map f64_to_string nums) ++ "]" ++ nl
  | Strings strs =>
      "  " ++ col_name ++ ": ["
        ++ String.concat ", " (map (fun s => dq ++ s ++ dq) strs) ++ "]" ++ nl
  | Formula f => "  " ++ col_name ++ ": " ++ dq ++ f ++ dq ++ nl
  end.

(** The sections [extract_table_data_yaml] passes over. *)
Definition table_data_excluded (section_name : string) : bool :=
  String.prefix "_" section_name || String.eqb section_name "scenarios"
  || String.eqb section_name "assumptions".

(** [extract_table_data_yaml] *)
Definition extract_table_data_yaml (spec : TestSpec) : string :=
  fold_left (fun yaml '(section_name, section) =>
               if table_data_excluded section_name then yaml
               else match section with
                    | Table columns =>
                        fold_left (fun y col => y ++ render_column col)
                                  columns (yaml ++ section_name ++ ":" ++ nl)
                    | ScalarGroup _ => yaml
                    end)
            (sections spec) EmptyString.

(** Equality of origins [(section, entry)]. *)
Definition key_eqb (k1 k2 : string * string) : bool :=
  String.eqb (fst k1) (fst k2) && String.eqb (snd k1) (snd k2).

End Types.

Import Types.

(** ** [src/runner.rs] *)

Module Runner.

(** [std::process::Output] as far as [run_test]/[run_batch] read it. *)
Record ForgeOutput := mkForgeOutput {
  status_success : bool;
  stderr : string            (* [String::from_utf8_lossy(&output.stderr)] *)
}.

(** A CSV file as [parse_batch_csv] reads it: the lines [reader.lines()]
    yields without error, in order, or the message of the [File::open]
    error.  Its loop passes over a line that cannot be read
    ([let Ok(line) = line else { continue }]), as if it were absent. *)
Definition CsvFile := result (list string) string.

(** One item of [reader.lines()]: the line, or the message of its
    [io::Error] (e.g. a line that is not valid UTF-8). *)
Definition CsvLine := result string string.

(** A CSV sheet as [find_result_in_csv] reads it: each item of
    [reader.lines()], or the message of the [File::open] error. *)
Definition CsvSheet := result (list CsvLine) string.

(** The literal [0.0001]. *)
Definition TOLERANCE : f64 := of_decimal false 1 (-4).

Definition is_result_label (cell : string) : bool :=
  String.eqb cell "result" || String.eqb cell "test_result".

(** [(value - expected).abs() < 0.0001] *)
Definition near_expected (value expected : f64) : bool :=
  ltb (abs (sub value expected)) TOLERANCE.

(** The cell loop of [find_result_in_csv] over one row: at each cell the
    label test, then the tolerance test; the first success returns. *)
Fixpoint scan_row (expected : f64) (cells : list string) : option f64 :=
  match cells with
  | [] => None
  | cell :: rest =>
      match (if is_result_label cell then
               match rest with
               | next :: _ => parse_f64 (remove_commas next)
               | [] => None
               end
             else None) with
      | Some value => Some value
      | None =>
          match parse_f64 (remove_commas cell) with
          | Some value => if near_expected value expected then Some value
                          else scan_row expected rest
          | None => scan_row expected rest
          end
      end
  end.

(** The line loop of [find_result_in_csv]: a line that cannot be read
    ends it ([line.map_err(...)?]); a row with an accepted cell returns its
    value; past the last line the search has failed. *)
Fixpoint scan_lines (expected : f64) (lines : list CsvLine) : result f64 string :=
  match lines with
  | [] => Err "Could not find result in CSV output"
  | Err e :: _ => Err ("Failed to read line: " ++ e)
  | Ok line :: lines' =>
      match scan_row expected (split_cells line) with
      | Some value => Ok value
      | None => scan_lines expected lines'
      end
  end.

(** [find_result_in_csv] *)
Definition find_result_in_csv (csv : CsvSheet) (expected : f64) : result f64 string :=
  match csv with
  | Err e => Err ("Failed to open CSV: " ++ e)
  | Ok lines => scan_lines expected lines
  end.

(** [label.strip_prefix("assumptions.test_").or_else(|| label.strip_prefix("test_"))] *)
Definition batch_label_index (label : string) : option string :=
  match strip_prefix "assumptions.test_" label with
  | Some s => Some s
  | None => strip_prefix "test_" label
  end.

(** The body of the line loop of [parse_batch_csv]: the slot and value a
    line writes, if any. *)
Definition batch_line_entry (count : nat) (line : string) : option (nat * f64) :=
  match split_cells line with
  | label :: cell1 :: _ =>
      match batch_label_index label with
      | Some idx_str =>
          match parse_usize idx_str with
          | Some idx =>
              if (idx <? N.of_nat count)%N then
                match parse_f64 (remove_commas cell1) with
                | Some value => Some (N.to_nat idx, value)
                | None => None
                end
              else None
          | None => None
          end
      | None => None
      end
  | _ => None
  end.

(** [results[idx] = x] *)
Fixpoint set_nth {A : Type} (n : nat) (x : A) (l : list A) : list A :=
  match l, n with
  | [], _ => []
  | _ :: l', O => x :: l'
  | y :: l', S n' => y :: set_nth n' x l'
  end.

Definition MISSING : string := "Missing result in CSV output".

(** One iteration of the line loop of [parse_batch_csv]. *)
Definition batch_step (count : nat) (results : list (result f64 string)) (line : string)
  : list (result f64 string) :=
  match batch_line_entry count line with
  | Some (idx, value) => set_nth idx (Ok value) results
  | None => results
  end.

(** [parse_batch_csv] *)
Definition parse_batch_csv (csv : CsvFile) (count : nat) : list (result f64 string) :=
  match csv with
  | Err e => repeat (Err ("Failed to open CSV: " ++ e)) count
  | Ok lines => fold_left (batch_step count) lines (repeat (Err MISSING) count)
  end.

(** [TestResult::Fail] with [actual: None]. *)
Definition fail_with (tc : TestCase) (msg : string) : TestResult :=
  Fail (tc_name tc) (tc_formula tc) (tc_expected tc) None (Some msg).

Definition skip_result (sc : SkipCase) : TestResult :=
  Skip (sc_name sc) (sc_reason sc).

(** The judgement on an extracted value, written alike in [run_test]
    and [run_batch]: [(actual - expected).abs() < f64::EPSILON]. *)
Definition judge (tc : TestCase) (actual : f64) : TestResult :=
  if ltb (abs (sub actual (tc_expected tc))) EPSILON then
    Pass (tc_name tc) (tc_formula tc) (tc_expected tc) actual
  else Fail (tc_name tc) (tc_formula tc) (tc_expected tc) (Some actual) None.

(** The outcomes of the external calls one [run_test] makes. *)
Record CaseEnv := mkCaseEnv {
  ce_source_spec : option TestSpec;   (* read + parse of [source_file] *)
  ce_tempdir : result unit string;
  ce_write : string -> result unit string;
  ce_forge : string -> result ForgeOutput string;   (* on the YAML written *)
  ce_convert_all : result (list CsvSheet) string      (* [xlsx_to_csv_all_sheets] *)
}.

(** The YAML document [run_test] writes. *)
Definition run_test_yaml (env : CaseEnv) (tc : TestCase) : string :=
  let escaped_formula := escape_quotes (tc_formula tc) in
  let table_data :=
    match tc_source_file tc with
    | Some _ => match ce_source_spec env with
                | Some spec => extract_table_data_yaml spec
                | None => EmptyString
                end
    | None => EmptyString
    end in
  "_forge_version: " ++ dq ++ tc_forge_version tc ++ dq ++ nl
  ++ table_data ++ "assumptions:" ++ nl
  ++ "  test_result:" ++ nl
  ++ "    value: null" ++ nl
  ++ "    formula: " ++ dq ++ escaped_formula ++ dq ++ nl.

(** [for csv_path in &csv_files { ... }] *)
Fixpoint search_sheets (tc : TestCase) (csv_files : list CsvSheet) : TestResult :=
  match csv_files with
  | [] => fail_with tc "Could not find result in any CSV sheet"
  | csv :: rest =>
      match find_result_in_csv csv (tc_expected tc) with
      | Ok actual => judge tc actual
      | Err _ => search_sheets tc rest
      end
  end.

(** [run_test] *)
Definition run_test (env : CaseEnv) (tc : TestCase) : TestResult :=
  let yaml_content := run_test_yaml env tc in
  match ce_tempdir env with
  | Err e => fail_with tc ("Failed to create temp dir: " ++ e)
  | Ok _ =>
      match ce_write env yaml_content with
      | Err e => fail_with tc ("Failed to write YAML: " ++ e)
      | Ok _ =>
          match ce_forge env yaml_content with
          | Err e => fail_with tc ("Failed to run forge: " ++ e)
          | Ok output =>
              if negb (status_success output) then
                fail_with tc ("forge export failed: " ++ stderr output)
              else
                match ce_convert_all env with
                | Err e => fail_with tc ("CSV conversion failed: " ++ e)
                | Ok csv_files => search_sheets tc csv_files
                end
          end
      end
  end.

(** [struct TestRunner]: the loaded cases (binary, engine and directory
    are the environment's). *)
Record TestRunner := mkTestRunner {
  test_cases : list TestCase;
  skip_cases : list SkipCase
}.

(** [run_all]: the [k]-th [run_test] call sees environment [envs k]. *)
Fixpoint run_tests (envs : nat -> CaseEnv) (k : nat) (tcs : list TestCase) : list TestResult :=
  match tcs with
  | [] => []
  | tc :: rest => run_test (envs k) tc :: run_tests envs (S k) rest
  end.

Definition run_all (envs : nat -> CaseEnv) (runner : TestRunner) : list TestResult :=
  (map skip_result (skip_cases runner) ++ run_tests envs 0 (test_cases runner))%list.

(** [run_all_streaming]: the callback [on_result] is a step on its own
    state [St]; the function returns the results and the final state. *)
Definition run_all_streaming {St : Type} (on_result : St -> TestResult -> St) (st0 : St)
    (envs : nat -> CaseEnv) (runner : TestRunner) : list TestResult * St :=
  let '(results, st) :=
    fold_left (fun '(results, st) skip_case =>
                 let result := skip_result skip_case in
                 ((results ++ [result])%list, on_result st result))
              (skip_cases runner) ([], st0) in
  let '(results, st, _) :=
    fold_left (fun '(results, st, k) tc =>
                 let result := run_test (envs k) tc in
                 ((results ++ [result])%list, on_result st result, S k))
              (test_cases runner) (results, st, O) in
  (results, st).

(** The outcomes of the external calls [run_batch] makes. *)
Record BatchEnv := mkBatchEnv {
  be_tempdir : result unit string;
  be_write : string -> result unit string;
  be_forge : string -> result ForgeOutput string;
  be_convert : result CsvFile string     (* [xlsx_to_csv], then the file *)
}.

(** The YAML document [run_batch] writes. *)
Definition batch_yaml (tcs : list TestCase) : string :=
  "_forge_version: " ++ dq ++ "1.0.0" ++ dq ++ nl ++ "assumptions:" ++ nl
  ++ String.concat EmptyString
       (map (fun '(i, tc) =>
               "  test_" ++ z_to_string (Z.of_nat i) ++ ":" ++ nl
               ++ "    value: null" ++ nl
               ++ "    formula: " ++ dq ++ escape_quotes (tc_formula tc) ++ dq ++ nl)
            (combine (seq 0 (length tcs)) tcs)).

(** The final loop of [run_batch]: [csv_results.get(i)]. *)
Fixpoint batch_match (csv_results : list (result f64 string)) (i : nat)
    (tcs : list TestCase) : list TestResult :=
  match tcs with
  | [] => []
  | tc :: rest =>
      match nth_error csv_results i with
      | Some (Ok actual) => judge tc actual
      | Some (Err e) => fail_with tc e
      | None => fail_with tc "Missing result in CSV"
      end :: batch_match csv_results (S i) rest
  end.

(** [run_batch] *)
Definition run_batch (env : BatchEnv) (runner : TestRunner) : list TestResult :=
  let results := map skip_result (skip_cases runner) in
  match test_cases runner with
  | [] => results
  | _ :: _ =>
      let tcs := test_cases runner in
      let yaml_content := batch_yaml tcs in
      let fail_all msg := (results ++ map (fun tc => fail_with tc msg) tcs)%list in
      match be_tempdir env with
      | Err e => fail_all ("Failed to create temp dir: " ++ e)
      | Ok _ =>
          match be_write env yaml_content with
          | Err e => fail_all ("Failed to write YAML: " ++ e)
          | Ok _ =>
              match be_forge env yaml_content with
              | Err e => fail_all ("Failed to run forge: " ++ e)
              | Ok output =>
                  if negb (status_success output) then
                    fail_all ("forge export failed: " ++ stderr output)
                  else
                    match be_convert env with
                    | Err e => fail_all ("CSV conversion failed: " ++ e)
                    | Ok csv =>
                        (results ++ batch_match (parse_batch_csv csv (length tcs)) 0 tcs)%list
                    end
              end
          end
      end
  end.

End Runner.

Import Runner.

(** ** [src/engine.rs] and the [std::path] operations it uses *)

Module Engine.

Definition starts_with_slash (s : string) : bool :=
  match s with String c _ => Ascii.eqb c "/"%char | EmptyString => false end.

Fixpoint ends_with_slash (s : string) : bool :=
  match s with
  | EmptyString => false
  | String c EmptyString => Ascii.eqb c "/"%char
  | String _ s' => ends_with_slash s'
  end.

(** [dir.join(name)] on Unix ([PathBuf::push]): an absolute [name]
    replaces [dir]; otherwise a separator is added unless [dir] is empty
    or already ends with one. *)
Definition path_join (dir name : string) : string :=
  if starts_with_slash name then name
  else if String.eqb dir EmptyString || ends_with_slash dir then dir ++ name
  else dir ++ "/" ++ name.

(** [rsplitn(2, '.')] on a file name: the text before and after the last
    dot, if there is one. *)
Fixpoint rsplit_dot (s : string) : option (string * string) :=
  match s with
  | EmptyString => None
  | String c s' =>
      match rsplit_dot s' with
      | Some (b, a) => Some (String c b, a)
      | None => if Ascii.eqb c "."%char then Some (EmptyString, s') else None
      end
  end.

(** [Path::file_name]: the last normal component ([.] components and
    empty ones between separators are not components; [..] is not
    normal). *)
Definition file_name (p : string) : option string :=
  let comps := filter (fun c => negb (String.eqb c EmptyString) && negb (String.eqb c "."))
                      (split_on "/"%char p) in
  match rev comps with
  | c :: _ => if String.eqb c ".." then None else Some c
  | [] => None
  end.

(** [Path::file_stem]: the file name up to its last dot, unless that dot
    is its first character. *)
Definition file_stem (p : string) : option string :=
  match file_name p with
  | None => None
  | Some name =>
      match rsplit_dot name with
      | Some (before, _) => if String.eqb before EmptyString then Some name else Some before
      | None => Some name
      end
  end.

(** [Path::extension]: the text after the last dot of the file name,
    unless that dot is its first character. *)
Definition extension (p : string) : option string :=
  match file_name p with
  | None => None
  | Some name =>
      match rsplit_dot name with
      | Some (before, after) => if String.eqb before EmptyString then None else Some after
      | None => None
      end
  end.

(** The outcomes of the [ssconvert] run and of [Path::exists] afterwards. *)
Record SsEnv := mkSsEnv {
  ss_output : result ForgeOutput string;
  ss_exists : string -> bool
}.

(** [output_dir.join(format!("{base_name}_{i}.csv"))] *)
Definition sheet_path (output_dir base_name : string) (i : nat) : string :=
  path_join output_dir (base_name ++ "_" ++ z_to_string (Z.of_nat i) ++ ".csv").

(** [for i in 0..10 { if csv_path.exists() { push } else { break } }],
    from index [i] with [fuel] indices left. *)
Fixpoint probe_sheets (env : SsEnv) (output_dir base_name : string) (i fuel : nat)
  : list string :=
  match fuel with
  | O => []
  | S f =>
      let csv_path := sheet_path output_dir base_name i in
      if ss_exists env csv_path then csv_path :: probe_sheets env output_dir base_name (S i) f
      else []
  end.

(** [GnumericEngine::xlsx_to_csv] *)
Definition xlsx_to_csv (env : SsEnv) (xlsx_path output_dir : string) : result string string :=
  match file_stem xlsx_path with
  | None => Err "Invalid xlsx path: no file stem"
  | Some base_name =>
      match ss_output env with
      | Err e => Err ("Failed to run ssconvert: " ++ e)
      | Ok output =>
          if negb (status_success output) then Err ("ssconvert failed: " ++ stderr output)
          else Ok (path_join output_dir (base_name ++ "_"))
      end
  end.

(** [GnumericEngine::xlsx_to_csv_all_sheets] *)
Definition xlsx_to_csv_all_sheets (env : SsEnv) (xlsx_path output_dir : string)
  : result (list string) string :=
  match file_stem xlsx_path with
  | None => Err "Invalid xlsx path: no file stem"
  | Some base_name =>
      match ss_output env with
      | Err e => Err ("Failed to run ssconvert: " ++ e)
      | Ok output =>
          if negb (status_success output) then Err ("ssconvert failed: " ++ stderr output)
          else match probe_sheets env output_dir base_name 0 10 with
               | [] => Err "No CSV files generated"
               | csv_files => Ok csv_files
               end
      end
  end.

End Engine.

Import Engine.

(** ** Loading the test specs ([TestRunner::new], [load_test_cases]) *)

Module Loader.

(** The directory tree under the tests directory: a file with the
    outcome of [fs::read_to_string], a directory with the outcome of
    [fs::read_dir] and of each entry it yields. *)
Inductive FsNode :=
| FsFile (name : string) (content : result string string)
| FsDir (name : string) (listing : FsListing)
with FsListing :=
| ReadDirFailed (e : string)
| Listed (entries : FsEntries)
with FsEntries :=
| NoMore
| EntryFailed (e : string) (rest : FsEntries)
| Entry (node : FsNode) (rest : FsEntries).

Scheme FsNode_ind2 := Induction for FsNode Sort Prop
with FsListing_ind2 := Induction for FsListing Sort Prop
with FsEntries_ind2 := Induction for FsEntries Sort Prop.

Combined Scheme FsNode_mutind from FsNode_ind2, FsListing_ind2, FsEntries_ind2.

Definition Loaded : Type := list TestCase * list SkipCase.

Section Load.

(** [serde_yaml_ng::from_str::<TestSpec>] *)
Variable parse_spec : string -> option TestSpec.

(** [load_test_cases_recursive]: [acc] is [(all_cases, all_skips)]. *)
Fixpoint load_listing (dir : string) (l : FsListing) (acc : Loaded) {struct l}
  : result Loaded string :=
  match l with
  | ReadDirFailed e => Err e
  | Listed es => load_entries dir es acc
  end
with load_entries (dir : string) (es : FsEntries) (acc : Loaded) {struct es}
  : result Loaded string :=
  match es with
  | NoMore => Ok acc
  | EntryFailed e _ => Err e
  | Entry node rest =>
      match load_node dir node acc with
      | Err e => Err e
      | Ok acc' => load_entries dir rest acc'
      end
  end
with load_node (dir : string) (node : FsNode) (acc : Loaded) {struct node}
  : result Loaded string :=
  match node with
  | FsDir name l => load_listing (path_join dir name) l acc
  | FsFile name content =>
      let path := path_join dir name in
      match extension path with
      | Some ext =>
          if String.eqb ext "yaml" then
            match content with
            | Err e => Err e
            | Ok text =>
                match parse_spec text with
                | Some spec =>
                    Ok ((fst acc ++ extract_test_cases spec (Some path))%list,
                        (snd acc ++ extract_skip_cases spec)%list)
                | None => Ok acc      (* a warning on stderr *)
                end
            end
          else Ok acc
      | None => Ok acc
      end
  end.

(** [load_test_cases] *)
Definition load_test_cases (tests_dir : string) (dir_exists : bool) (l : FsListing)
  : result Loaded string :=
  if negb dir_exists then Err ("Tests directory does not exist: " ++ tests_dir)
  else load_listing tests_dir l ([], []).

(** [TestRunner::new] *)
Definition new_runner (tests_dir : string) (dir_exists : bool) (l : FsListing)
  : result TestRunner string :=
  match load_test_cases tests_dir dir_exists l with
  | Err e => Err e
  | Ok (cases, skips) => Ok (mkTestRunner cases skips)
  end.

End Load.

(** [find_yaml_files] (present in the source, not called): the paths of
    the YAML files under a directory, in the order [read_dir] yields them. *)
Fixpoint find_yaml_listing (dir : string) (l : FsListing) {struct l}
  : result (list string) string :=
  match l with
  | ReadDirFailed e => Err e
  | Listed es => find_yaml_entries dir es
  end
with find_yaml_entries (dir : string) (es : FsEntries) {struct es}
  : result (list string) string :=
  match es with
  | NoMore => Ok []
  | EntryFailed e _ => Err e
  | Entry node rest =>
      match find_yaml_node dir node with
      | Err e => Err e
      | Ok a =>
          match find_yaml_entries dir rest with
          | Err e => Err e
          | Ok b => Ok (a ++ b)%list
          end
      end
  end
with find_yaml_node (dir : string) (node : FsNode) {struct node}
  : result (list string) string :=
  match node with
  | FsDir name l => find_yaml_listing (path_join dir name) l
  | FsFile name _ =>
      let path := path_join dir name in
      match extension path with
      | Some ext => if String.eqb ext "yaml" then Ok [path] else Ok []
      | None => Ok []
      end
  end.

(** [TestRunner::total_tests] *)
Definition total_tests (runner : TestRunner) : nat :=
  length (test_cases runner) + length (skip_cases runner).

End Loader.

Import Loader.

(** ** [src/main.rs] *)

Module Main.

Definition RELATIVE_FORGE : string := "../forge/target/release/forge".

(** The forge binary [main] runs: [--binary], else [FORGE_BIN], else the
    relative build path when it exists; then the chosen path must exist. *)
Definition find_forge_binary (cli_binary forge_bin_var : option string)
    (path_exists : string -> bool) : result string string :=
  let candidate :=
    match cli_binary with
    | Some b => Some b
    | None =>
        match forge_bin_var with
        | Some v => Some v
        | None => if path_exists RELATIVE_FORGE then Some RELATIVE_FORGE else None
        end
    end in
  match candidate with
  | None => Err "Forge binary not found. Set FORGE_BIN or use --binary, or build forge at ../forge/"
  | Some forge_binary =>
      if negb (path_exists forge_binary) then Err ("Forge binary not found: " ++ forge_binary)
      else Ok forge_binary
  end.

Definition is_skip (r : TestResult) : bool :=
  match r with Skip _ _ => true | _ => false end.

(** The results [run_all_mode] prints: [run_batch] in batch mode,
    otherwise [run_all_streaming] with [print_result] as callback. *)
Definition run_all_mode_results {St : Type} (print_result : St -> TestResult -> St) (st0 : St)
    (envs : nat -> CaseEnv) (benv : BatchEnv) (runner : TestRunner) (batch : bool)
  : list TestResult :=
  if batch then run_batch benv runner
  else fst (run_all_streaming print_result st0 envs runner).

(** The summary line's counts: passed, failed, skipped. *)
Definition summary_counts (results : list TestResult) : nat * nat * nat :=
  (length (filter is_pass results), length (filter is_fail results),
   length (filter is_skip results)).

(** The process exit status: [std::process::exit(1)] when [failed > 0]. *)
Definition exit_code (results : list TestResult) : nat :=
  let '(_, failed, _) := summary_counts results in
  if (0 <? failed)%nat then 1 else 0.

End Main.

Import Main.

(** ** Vocabulary of the statements *)

Module Statements.

(** The columns of a table section as [extract_table_data_yaml] writes them. *)
Definition render_columns (cols : list (string * TableColumn)) : string :=
  fold_right (fun col acc => render_column col ++ acc) EmptyString cols.

(** The block a table section contributes: its header line and its columns. *)
Definition table_block (section_name : string) (cols : list (string * TableColumn)) : string :=
  section_name ++ ":" ++ nl ++ render_columns cols.

(** A section [extract_table_data_yaml] renders. *)
Definition kept_table_section (s : string * Section) : bool :=
  negb (table_data_excluded (fst s)) && match snd s with Table _ => true | _ => false end.

(** What one section contributes to [extract_table_data_yaml]. *)
Definition section_block (s : string * Section) : string :=
  if kept_table_section s then
    match snd s with Table cols => table_block (fst s) cols | ScalarGroup _ => EmptyString end
  else EmptyString.

(** [res] is a Pass or a Fail named after [tc]. *)
Definition verdict (tc : TestCase) (res : TestResult) : Prop :=
  result_name res = tc_name tc /\ (is_pass res || is_fail res) = true.

(** One Skip per SkipCase in order, then one Pass or Fail per TestCase in
    order, named after it. *)
Definition complete_results (runner : TestRunner) (results : list TestResult) : Prop :=
  exists rest,
    results = (map skip_result (skip_cases runner) ++ rest)%list /\
    Forall2 verdict (test_cases runner) rest.

(** Some step of [run_batch]'s shared pipeline fails. *)
Definition batch_infra_fails (env : BatchEnv) (yaml_content : string) : Prop :=
  (exists e, be_tempdir env = Err e) \/
  (exists e, be_write env yaml_content = Err e) \/
  (exists e, be_forge env yaml_content = Err e) \/
  (exists o, be_forge env yaml_content = Ok o /\ status_success o = false) \/
  (exists e, be_convert env = Err e).

(** A cell that is neither a label nor a number within [0.0001]. *)
Definition inert_cell (expected : f64) (cell : string) : Prop :=
  is_result_label cell = false /\
  forall x, parse_f64 (remove_commas cell) = Some x -> near_expected x expected = false.

(** The slots [parse_batch_csv] can write from a list of lines. *)
Definition batch_entries (count : nat) (lines : list string) : list (nat * f64) :=
  flat_map (fun line => match batch_line_entry count line with
                        | Some p => [p]
                        | None => []
                        end) lines.

(** The [error] field of a result. *)
Definition result_error (r : TestResult) : option string :=
  match r with Fail _ _ _ _ err => err | _ => None end.

(** A Pass or Fail for [tc] in one of the three shapes the runners build:
    a Pass whose [actual] is within [EPSILON] of [expected], a Fail with
    an [actual] outside it and no error, or a Fail with an error and no
    [actual]. *)
Definition consistent_result (tc : TestCase) (r : TestResult) : Prop :=
  match r with
  | Pass n f e a =>
      n = tc_name tc /\ f = tc_formula tc /\ e = tc_expected tc /\
      ltb (abs (sub a e)) EPSILON = true
  | Fail n f e (Some a) None =>
      n = tc_name tc /\ f = tc_formula tc /\ e = tc_expected tc /\
      ltb (abs (sub a e)) EPSILON = false
  | Fail n f e None (Some _) =>
      n = tc_name tc /\ f = tc_formula tc /\ e = tc_expected tc
  | _ => False
  end.

(** Cell [i] of a row stops the row loop of [find_result_in_csv] with
    [v]: it is a label followed by a cell that parses as [v], or it
    parses as [v] within [0.0001] of [expected]. *)
Definition accepted_cell (expected : f64) (cells : list string) (i : nat) (v : f64) : Prop :=
  exists cell, nth_error cells i = Some cell /\
    ((is_result_label cell = true /\
      exists next, nth_error cells (S i) = Some next /\ parse_f64 (remove_commas next) = Some v)
     \/ (parse_f64 (remove_commas cell) = Some v /\ near_expected v expected = true)).

(** The YAML files the loader reads, in the order it reads them, as
    (path, text); [None] when it meets a failing [read_dir], directory
    entry or read of a YAML file. *)
Fixpoint listing_yaml_files (dir : string) (l : FsListing) {struct l}
  : option (list (string * string)) :=
  match l with
  | ReadDirFailed _ => None
  | Listed es => entries_yaml_files dir es
  end
with entries_yaml_files (dir : string) (es : FsEntries) {struct es}
  : option (list (string * string)) :=
  match es with
  | NoMore => Some []
  | EntryFailed _ _ => None
  | Entry node rest =>
      match node_yaml_files dir node, entries_yaml_files dir rest with
      | Some a, Some b => Some (a ++ b)%list
      | _, _ => None
      end
  end
with node_yaml_files (dir : string) (node : FsNode) {struct node}
  : option (list (string * string)) :=
  match node with
  | FsDir name l => listing_yaml_files (path_join dir name) l
  | FsFile name content =>
      let path := path_join dir name in
      match extension path with
      | Some ext =>
          if String.eqb ext "yaml" then
            match content with
            | Ok text => Some [(path, text)]
            | Err _ => None
            end
          else Some []
      | None => Some []
      end
  end.

(** What one YAML file adds to the test cases and to the skip cases. *)
Definition file_cases (parse_spec : string -> option TestSpec) (f : string * string)
  : list TestCase :=
  match parse_spec (snd f) with
  | Some spec => extract_test_cases spec (Some (fst f))
  | None => []
  end.

Definition file_skips (parse_spec : string -> option TestSpec) (f : string * string)
  : list SkipCase :=
  match parse_spec (snd f) with
  | Some spec => extract_skip_cases spec
  | None => []
  end.

(** Cell [i] is the first cell of the row that the row loop accepts, and
    it yields [v]. *)
Definition first_accepted (expected : f64) (cells : list string) (i : nat) (v : f64) : Prop :=
  accepted_cell expected cells i v /\
  forall j w, (j < i)%nat -> ~ accepted_cell expected cells j w.

(** [run_batch]'s conversion step as the source performs it:
    [xlsx_to_csv], then [File::open] of the path it returns, where [open]
    gives the outcome of opening each path. *)
Definition batch_convert (ss : SsEnv) (open : string -> CsvFile) (xlsx_path output_dir : string)
  : result CsvFile string :=
  match xlsx_to_csv ss xlsx_path output_dir with
  | Err e => Err e
  | Ok p => Ok (open p)
  end.

End Statements.

Import Statements.

(** * Proofs *)

(** ** Generic facts on lists and strings *)

Module Facts.

Lemma nodup_fst_in_eq {K V : Type} (l : list (K * V)) k v1 v2 :
  NoDup (map fst l) -> In (k, v1) l -> In (k, v2) l -> v1 = v2.
Proof.
  induction l as [|[k0 v0] l IH]; simpl; intros Hnd H1 H2; [contradiction|].
  inversion Hnd as [|? ? Hnotin Hnd']; subst.
  destruct H1 as [H1|H1], H2 as [H2|H2].
  - congruence.
  - inversion H1; subst. exfalso. apply Hnotin. apply (in_map fst) in H2. exact H2.
  - inversion H2; subst. exfalso. apply Hnotin. apply (in_map fst) in H1. exact H1.
  - eauto.
Qed.

Lemma filter_flat_map_nil {A B : Type} (p : B -> bool) (g : A -> list B) (l : list A) :
  (forall x, In x l -> filter p (g x) = []) -> filter p (flat_map g l) = [].
Proof.
  induction l as [|x l IH]; simpl; intros H; [reflexivity|].
  rewrite filter_app, H, IH by auto. reflexivity.
Qed.

(** In a list with distinct keys, only the entry with key [k] survives a
    filter that drops everything produced under another key. *)
Lemma filter_flat_map_unique {K V B : Type} (p : B -> bool) (g : K * V -> list B)
    (l : list (K * V)) k v :
  NoDup (map fst l) -> In (k, v) l ->
  (forall k' v', In (k', v') l -> k' <> k -> filter p (g (k', v')) = []) ->
  filter p (flat_map g l) = filter p (g (k, v)).
Proof.
  induction l as [|[k0 v0] l IH]; simpl; intros Hnd Hin Hoth; [contradiction|].
  inversion Hnd as [|? ? Hnotin Hnd']; subst.
  rewrite filter_app.
  destruct Hin as [Heq|Hin].
  - inversion Heq; subst.
    rewrite filter_flat_map_nil, app_nil_r; [reflexivity|].
    intros [k' v'] Hin'. apply Hoth; [now right|].
    intros ->. apply Hnotin. apply (in_map fst) in Hin'. exact Hin'.
  - assert (Hk : k0 <> k).
    { intros ->. apply Hnotin. apply (in_map fst) in Hin. exact Hin. }
    rewrite (Hoth k0 v0 (or_introl eq_refl) Hk). simpl.
    apply IH; auto.
Qed.

Lemma filter_all_false {A : Type} (p : A -> bool) (l : list A) :
  (forall x, In x l -> p x = false) -> filter p l = [].
Proof.
  induction l as [|x l IH]; simpl; intros H; [reflexivity|].
  rewrite H by auto. apply IH; auto.
Qed.

Lemma string_app_assoc (a b c : string) : (a ++ b) ++ c = a ++ (b ++ c).
Proof. induction a as [|x a IH]; simpl; [reflexivity|]. now rewrite IH. Qed.

Lemma string_app_nil_r (a : string) : a ++ EmptyString = a.
Proof. induction a as [|x a IH]; simpl; [reflexivity|]. now rewrite IH. Qed.

End Facts.

(** ** Case extraction ([extract_test_cases], [extract_skip_cases]) *)

Module ExtractProofs.

Import Facts.

Lemma extract_test_cases_traced_snd spec src :
  map snd (extract_test_cases_traced spec src) = extract_test_cases spec src.
Proof.
  unfold extract_test_cases_traced, extract_test_cases.
  induction (sections spec) as [|[sname sec] rest IH]; simpl; [reflexivity|].
  rewrite map_app, IH. f_equal.
  destruct (reserved_section sname); [reflexivity|].
  destruct sec as [scalars|cols]; [|reflexivity].
  induction scalars as [|e es IHs]; simpl; [reflexivity|].
  rewrite map_app, IHs, map_map. simpl. rewrite map_id. reflexivity.
Qed.

Lemma in_traced spec src key tc :
  In (key, tc) (extract_test_cases_traced spec src) ->
  exists sname scalars n sc,
    In (sname, ScalarGroup scalars) (sections spec) /\
    In (n, sc) scalars /\ key = (sname, n) /\
    In tc (entry_test_cases spec src sname (n, sc)).
Proof.
  unfold extract_test_cases_traced. intros H.
  apply in_flat_map in H as [[sname sec] [Hsec H]].
  destruct (reserved_section sname); [contradiction|].
  destruct sec as [scalars|cols]; [|contradiction].
  apply in_flat_map in H as [[n sc] [Hent H]].
  apply in_map_iff in H as [tc' [Heq Htc]]. inversion Heq; subst.
  exists sname, scalars, n, sc. auto.
Qed.

Lemma entry_test_cases_skip spec src sname n sc r :
  skip sc = Some r -> entry_test_cases spec src sname (n, sc) = [].
Proof. intros H. simpl. now rewrite H. Qed.

Lemma in_skip_cases spec sname scalars n sc r :
  In (sname, ScalarGroup scalars) (sections spec) -> reserved_section sname = false ->
  In (n, sc) scalars -> skip sc = Some r ->
  In (mkSkipCase (qualified sname n) r) (extract_skip_cases spec).
Proof.
  intros Hsec Hres Hent Hskip. unfold extract_skip_cases.
  apply in_flat_map. exists (sname, ScalarGroup scalars). split; [exact Hsec|].
  simpl. rewrite Hres. apply in_flat_map. exists (n, sc). split; [exact Hent|].
  simpl. rewrite Hskip. now left.
Qed.

End ExtractProofs.

Module ExtractClaims.

Import Facts ExtractProofs.

(** C3: in a spec whose section names and entry names are distinct (as
    the keys of a [HashMap] are), a ScalarGroup entry of a non-reserved
    section whose [skip] is set yields the SkipCase [<section>.<entry>]
    with its reason, and no runnable case is pushed for that entry,
    whatever its [formula] and [expected]. *)
Theorem skip_entry_only_in_skip_list (spec : TestSpec) (src : option string)
    (sname n : string) (scalars : list (string * Scalar)) (sc : Scalar) (r : string) :
  NoDup (map fst (sections spec)) ->
  NoDup (map fst scalars) ->
  In (sname, ScalarGroup scalars) (sections spec) ->
  reserved_section sname = false ->
  In (n, sc) scalars ->
  skip sc = Some r ->
  In (mkSkipCase (qualified sname n) r) (extract_skip_cases spec) /\
  ~ In (sname, n) (map fst (extract_test_cases_traced spec src)) /\
  map snd (extract_test_cases_traced spec src) = extract_test_cases spec src.
Proof.
  intros Hnds Hnde Hsec Hres Hent Hskip.
  split; [eapply in_skip_cases; eauto|].
  split; [|apply extract_test_cases_traced_snd].
  intros Hin. apply in_map_iff in Hin as [[key tc] [Hkey Hin]]. simpl in Hkey; subst key.
  apply in_traced in Hin as (sname' & scalars' & n' & sc' & Hsec' & Hent' & Hk & Htc).
  inversion Hk; subst sname' n'.
  pose proof (nodup_fst_in_eq _ _ _ _ Hnds Hsec Hsec') as Hs. inversion Hs; subst scalars'.
  pose proof (nodup_fst_in_eq _ _ _ _ Hnde Hent Hent') as Hsc. subst sc'.
  rewrite (entry_test_cases_skip _ _ _ _ _ _ Hskip) in Htc. contradiction.
Qed.

(** C4: in a spec with distinct section and entry names, a ScalarGroup
    entry of a non-reserved section with [formula = Some f],
    [expected = Some e] and no [skip] gives exactly one pushed TestCase,
    named [<section>.<entry>], carrying [f] and [e]. *)
Theorem runnable_entry_yields_one_case (spec : TestSpec) (src : option string)
    (sname n : string) (scalars : list (string * Scalar)) (sc : Scalar) (f : string) (e : f64) :
  NoDup (map fst (sections spec)) ->
  NoDup (map fst scalars) ->
  In (sname, ScalarGroup scalars) (sections spec) ->
  reserved_section sname = false ->
  In (n, sc) scalars ->
  skip sc = None -> formula sc = Some f -> expected sc = Some e ->
  filter (fun p => key_eqb (fst p) (sname, n)) (extract_test_cases_traced spec src)
    = [((sname, n), mkTestCase (qualified sname n) f e src (forge_version spec))] /\
  map snd (extract_test_cases_traced spec src) = extract_test_cases spec src.
Proof.
  intros Hnds Hnde Hsec Hres Hent Hskip Hf He.
  split; [|apply extract_test_cases_traced_snd].
  unfold extract_test_cases_traced.
  rewrite (filter_flat_map_unique _ _ _ sname (ScalarGroup scalars) Hnds Hsec).
  - simpl. rewrite Hres.
    rewrite (filter_flat_map_unique _ _ _ n sc Hnde Hent).
    + simpl. rewrite Hskip, Hf, He. simpl.
      unfold key_eqb. simpl. rewrite !String.eqb_refl. reflexivity.
    + intros n' sc' _ Hne. apply filter_all_false. intros x Hx.
      apply in_map_iff in Hx as [tc [<- _]]. simpl.
      unfold key_eqb. simpl. rewrite String.eqb_refl.
      destruct (String.eqb_spec n' n); [contradiction|reflexivity].
  - intros sname' sec' _ Hne.
    destruct (reserved_section sname'); [reflexivity|].
    destruct sec' as [scalars'|cols]; [|reflexivity].
    apply filter_flat_map_nil. intros [n' sc'] _.
    apply filter_all_false. intros x Hx.
    apply in_map_iff in Hx as [tc [<- _]]. simpl.
    unfold key_eqb. simpl.
    destruct (String.eqb_spec sname' sname); [contradiction|reflexivity].
Qed.

End ExtractClaims.

(** ** Table re-rendering ([extract_table_data_yaml]) *)

Module TableProofs.

Import Facts.

Lemma render_columns_fold cols acc :
  fold_left (fun y col => y ++ render_column col) cols acc = acc ++ render_columns cols.
Proof.
  revert acc. induction cols as [|c cols IH]; intros acc; simpl.
  - now rewrite string_app_nil_r.
  - rewrite IH. apply string_app_assoc.
Qed.

Lemma extract_table_data_yaml_blocks spec :
  extract_table_data_yaml spec
  = fold_right (fun s acc => section_block s ++ acc) EmptyString (sections spec).
Proof.
  unfold extract_table_data_yaml.
  enough (H : forall acc, fold_left (fun yaml '(section_name, section) =>
               if table_data_excluded section_name then yaml
               else match section with
                    | Table columns =>
                        fold_left (fun y col => y ++ render_column col)
                                  columns (yaml ++ section_name ++ ":" ++ nl)
                    | ScalarGroup _ => yaml
                    end) (sections spec) acc
             = acc ++ fold_right (fun s acc => section_block s ++ acc) EmptyString (sections spec))
    by apply H.
  induction (sections spec) as [|[sname sec] rest IH]; intros acc; simpl.
  - now rewrite string_app_nil_r.
  - rewrite IH. unfold section_block, kept_table_section. simpl.
    destruct (table_data_excluded sname); simpl; [reflexivity|].
    destruct sec as [scalars|cols]; simpl; [reflexivity|].
    rewrite render_columns_fold. unfold table_block.
    rewrite !string_app_assoc. reflexivity.
Qed.

Lemma fold_right_blocks_app (l1 l2 : list (string * Section)) :
  fold_right (fun s acc => section_block s ++ acc) EmptyString (l1 ++ l2)
  = fold_right (fun s acc => section_block s ++ acc) EmptyString l1
    ++ fold_right (fun s acc => section_block s ++ acc) EmptyString l2.
Proof.
  induction l1 as [|s l1 IH]; simpl; [reflexivity|].
  rewrite IH. now rewrite string_app_assoc.
Qed.

Lemma fold_right_blocks_filter (l : list (string * Section)) :
  fold_right (fun s acc => section_block s ++ acc) EmptyString (filter kept_table_section l)
  = fold_right (fun s acc => section_block s ++ acc) EmptyString l.
Proof.
  induction l as [|s l IH]; simpl; [reflexivity|].
  destruct (kept_table_section s) eqn:Hk; simpl; rewrite IH; [reflexivity|].
  unfold section_block. now rewrite Hk.
Qed.

End TableProofs.

Module TableClaims.

Import Facts TableProofs.

(** C9 (corrected): [extract_table_data_yaml] writes a Table section that
    is not passed over ([_]-prefixed, [scenarios] or [assumptions]) as its
    header line followed by its column lines, and the output depends only
    on those sections, in iteration order: ScalarGroup sections and the
    passed-over names contribute nothing. *)
Theorem table_section_rendered_unless_excluded (spec : TestSpec) (sname : string)
    (cols : list (string * TableColumn)) :
  In (sname, Table cols) (sections spec) ->
  table_data_excluded sname = false ->
  (exists pre post, extract_table_data_yaml spec = pre ++ table_block sname cols ++ post) /\
  extract_table_data_yaml spec
  = extract_table_data_yaml (mkTestSpec (forge_version spec)
                                        (filter kept_table_section (sections spec))).
Proof.
  intros Hin Hexcl. split.
  - apply in_split in Hin as (l1 & l2 & Hl).
    rewrite extract_table_data_yaml_blocks, Hl, fold_right_blocks_app.
    change (fold_right (fun s acc => section_block s ++ acc) EmptyString ((sname, Table cols) :: l2))
      with (section_block (sname, Table cols)
              ++ fold_right (fun s acc => section_block s ++ acc) EmptyString l2).
    unfold section_block at 2, kept_table_section. simpl. rewrite Hexcl. simpl.
    eexists. eexists. reflexivity.
  - rewrite !extract_table_data_yaml_blocks. simpl.
    now rewrite fold_right_blocks_filter.
Qed.

(** C9, counterexample: a Table section named [assumptions] (not a
    reserved name for the case extractors) contributes nothing. *)
Lemma assumptions_table_not_rendered :
  reserved_section "assumptions" = false /\
  extract_table_data_yaml
    (mkTestSpec "1.0.0"
       [("assumptions", Table [("values", Numbers [of_decimal false 10 0])])])
  = EmptyString.
Proof. split; vm_compute; reflexivity. Qed.

End TableClaims.

(** ** Runners ([run_test], [run_all], [run_all_streaming], [run_batch]) *)

Module RunnerProofs.

Lemma judge_verdict tc a : verdict tc (judge tc a).
Proof. unfold judge, verdict. destruct (ltb _ _); simpl; auto. Qed.

Lemma fail_with_verdict tc msg : verdict tc (fail_with tc msg).
Proof. unfold verdict; simpl; auto. Qed.

Lemma search_sheets_verdict tc files : verdict tc (search_sheets tc files).
Proof.
  induction files as [|f files IH]; simpl; [apply fail_with_verdict|].
  destruct (find_result_in_csv f (tc_expected tc)); [apply judge_verdict|exact IH].
Qed.

Lemma run_test_verdict env tc : verdict tc (run_test env tc).
Proof.
  unfold run_test.
  destruct (ce_tempdir env); [|apply fail_with_verdict].
  destruct (ce_write env _); [|apply fail_with_verdict].
  destruct (ce_forge env _) as [o|]; [|apply fail_with_verdict].
  destruct (negb (status_success o)); [apply fail_with_verdict|].
  destruct (ce_convert_all env); [apply search_sheets_verdict|apply fail_with_verdict].
Qed.

Lemma run_tests_verdict envs k tcs : Forall2 verdict tcs (run_tests envs k tcs).
Proof.
  revert k. induction tcs as [|tc tcs IH]; intros k; simpl; constructor; auto.
  apply run_test_verdict.
Qed.

Lemma batch_match_verdict csv_results i tcs : Forall2 verdict tcs (batch_match csv_results i tcs).
Proof.
  revert i. induction tcs as [|tc tcs IH]; intros i; simpl; constructor; auto.
  destruct (nth_error csv_results i) as [[a|e]|];
    [apply judge_verdict|apply fail_with_verdict|apply fail_with_verdict].
Qed.

Lemma fail_all_verdict msg tcs : Forall2 verdict tcs (map (fun tc => fail_with tc msg) tcs).
Proof. induction tcs; simpl; constructor; auto using fail_with_verdict. Qed.

Lemma streaming_skips {St : Type} (on_result : St -> TestResult -> St) skips acc st :
  exists st',
    fold_left (fun '(results, st) skip_case =>
                 let result := skip_result skip_case in
                 ((results ++ [result])%list, on_result st result))
              skips (acc, st)
    = ((acc ++ map skip_result skips)%list, st').
Proof.
  revert acc st. induction skips as [|sc skips IH]; intros acc st; cbn [fold_left].
  - exists st. now rewrite app_nil_r.
  - destruct (IH (acc ++ [skip_result sc])%list (on_result st (skip_result sc))) as [st' H].
    exists st'. simpl in H |- *. rewrite H, <- app_assoc. reflexivity.
Qed.

Lemma streaming_tests {St : Type} (on_result : St -> TestResult -> St) envs tcs acc st k :
  exists st',
    fold_left (fun '(results, st, k) tc =>
                 let result := run_test (envs k) tc in
                 ((results ++ [result])%list, on_result st result, S k))
              tcs (acc, st, k)
    = ((acc ++ run_tests envs k tcs)%list, st', (k + length tcs)%nat).
Proof.
  revert acc st k. induction tcs as [|tc tcs IH]; intros acc st k; cbn [fold_left length].
  - exists st. now rewrite app_nil_r, Nat.add_0_r.
  - destruct (IH (acc ++ [run_test (envs k) tc])%list (on_result st (run_test (envs k) tc)) (S k))
      as [st' H].
    exists st'. simpl in H |- *. rewrite H, <- app_assoc, Nat.add_succ_r. reflexivity.
Qed.

End RunnerProofs.

Module RunnerClaims.

Import RunnerProofs.

(** C10: for every loaded runner, every environment the external calls
    may answer with, and every callback, [run_all], [run_all_streaming]
    and [run_batch] each return one Skip carrying its name and reason per
    SkipCase, in order, followed by exactly one Pass or Fail per TestCase,
    in order and named after it; in [run_batch] this holds on the early
    return with no test cases and on every infrastructure-failure branch. *)
Theorem every_strategy_reports_each_case_once {St : Type}
    (envs : nat -> CaseEnv) (benv : BatchEnv)
    (on_result : St -> TestResult -> St) (st0 : St) (runner : TestRunner) :
  complete_results runner (run_all envs runner) /\
  complete_results runner (fst (run_all_streaming on_result st0 envs runner)) /\
  complete_results runner (run_batch benv runner).
Proof.
  split; [|split].
  - exists (run_tests envs 0 (test_cases runner)). split; [reflexivity|].
    apply run_tests_verdict.
  - unfold run_all_streaming.
    destruct (streaming_skips on_result (skip_cases runner) [] st0) as [st1 H1].
    match goal with
    | |- context [fold_left ?f (skip_cases runner) ([], st0)] =>
        replace (fold_left f (skip_cases runner) ([], st0))
          with (map skip_result (skip_cases runner), st1) by (symmetry; exact H1)
    end.
    destruct (streaming_tests on_result envs (test_cases runner)
                (map skip_result (skip_cases runner)) st1 0) as [st2 H2].
    match goal with
    | |- context [fold_left ?f (test_cases runner) (?a, st1, O)] =>
        replace (fold_left f (test_cases runner) (a, st1, O))
          with ((map skip_result (skip_cases runner) ++ run_tests envs 0 (test_cases runner))%list,
                st2, (0 + length (test_cases runner))%nat) by (symmetry; exact H2)
    end.
    simpl.
    exists (run_tests envs 0 (test_cases runner)). split; [reflexivity|].
    apply run_tests_verdict.
  - unfold run_batch, complete_results.
    destruct (test_cases runner) as [|tc0 tcs0] eqn:Htcs.
    + exists []. split; [now rewrite app_nil_r|constructor].
    + rewrite <- Htcs.
      destruct (be_tempdir benv); [|eexists; split; [reflexivity|apply fail_all_verdict]].
      destruct (be_write benv _); [|eexists; split; [reflexivity|apply fail_all_verdict]].
      destruct (be_forge benv _) as [o|];
        [|eexists; split; [reflexivity|apply fail_all_verdict]].
      destruct (negb (status_success o));
        [eexists; split; [reflexivity|apply fail_all_verdict]|].
      destruct (be_convert benv);
        [|eexists; split; [reflexivity|apply fail_all_verdict]].
      eexists; split; [reflexivity|apply batch_match_verdict].
Qed.

(** C5: when any step of [run_batch]'s shared pipeline fails (temp dir,
    YAML write, forge run or forge exit status, CSV conversion), the
    result is the Skips of the skip cases followed by one Fail per test
    case, each with [actual = None] and one and the same error message. *)
Theorem batch_infra_failure_fails_every_case (env : BatchEnv) (runner : TestRunner) :
  batch_infra_fails env (batch_yaml (test_cases runner)) ->
  exists msg,
    run_batch env runner
    = (map skip_result (skip_cases runner)
       ++ map (fun tc => Fail (tc_name tc) (tc_formula tc) (tc_expected tc) None (Some msg))
              (test_cases runner))%list.
Proof.
  intros Hfail. unfold run_batch.
  destruct (test_cases runner) as [|tc0 tcs0] eqn:Htcs.
  { exists EmptyString. simpl. now rewrite app_nil_r. }
  rewrite <- Htcs. unfold fail_with.
  destruct (be_tempdir env) as [u|e] eqn:Ht; [|eexists; reflexivity].
  destruct (be_write env _) as [u'|e] eqn:Hw; [|eexists; reflexivity].
  destruct (be_forge env _) as [o|e] eqn:Hf; [|eexists; reflexivity].
  destruct (status_success o) eqn:Hs; simpl; [|eexists; reflexivity].
  destruct (be_convert env) as [csv|e] eqn:Hc; [|eexists; reflexivity].
  exfalso.
  destruct Hfail as [[e He]|[[e He]|[[e He]|[[o' [He Hs']]|[e He]]]]]; congruence.
Qed.

End RunnerClaims.

(** ** Result extraction and judgement ([find_result_in_csv], [run_test]) *)

Module MatchProofs.

Lemma scan_row_inert expected cs1 rest :
  Forall (inert_cell expected) cs1 ->
  scan_row expected (cs1 ++ rest) = scan_row expected rest.
Proof.
  induction 1 as [|cell cs1 [Hlab Hnear] _ IH]; [reflexivity|].
  simpl. rewrite Hlab.
  destruct (parse_f64 (remove_commas cell)) as [x|] eqn:Hp; [|exact IH].
  rewrite (Hnear x eq_refl). exact IH.
Qed.

Lemma scan_lines_skip expected pre rest :
  Forall (fun line => scan_row expected (split_cells line) = None) pre ->
  scan_lines expected (map Ok pre ++ rest) = scan_lines expected rest.
Proof.
  induction 1 as [|line pre Hnone _ IH]; [reflexivity|].
  simpl. rewrite Hnone. exact IH.
Qed.

Lemma search_sheets_skip tc pre rest :
  Forall (fun c => exists e, find_result_in_csv c (tc_expected tc) = Err e) pre ->
  search_sheets tc (pre ++ rest) = search_sheets tc rest.
Proof.
  induction 1 as [|c pre [e He] _ IH]; [reflexivity|].
  simpl. rewrite He. exact IH.
Qed.

Lemma batch_match_nth csv_results k tcs i tc :
  nth_error tcs i = Some tc ->
  nth_error (batch_match csv_results k tcs) i
  = Some (match nth_error csv_results (k + i) with
          | Some (Ok actual) => judge tc actual
          | Some (Err e) => fail_with tc e
          | None => fail_with tc "Missing result in CSV"
          end).
Proof.
  revert k i. induction tcs as [|tc0 tcs IH]; intros k i H; [destruct i; discriminate|].
  destruct i as [|i]; simpl in H |- *.
  - inversion H; subst. now rewrite Nat.add_0_r.
  - rewrite (IH (S k) i H). now rewrite Nat.add_succ_r.
Qed.

Lemma sub_self_small (x : f64) :
  ((exists s m e, x = S754_finite s m e) \/ (exists s, x = S754_zero s)) ->
  ltb (abs (sub x x)) EPSILON = true.
Proof.
  intros [(s & m & e & ->)|(s & ->)].
  - unfold sub, SFsub. rewrite Z.sub_diag. reflexivity.
  - destruct s; reflexivity.
Qed.

End MatchProofs.

Module MatchClaims.

Import MatchProofs.

(** C1 (corrected): once a value [v] has been extracted, both modes judge
    it with [|v - expected| < f64::EPSILON] computed in binary64: Pass
    with [actual = v] when it holds, otherwise Fail with
    [actual = Some v] and no error.  In [run_test], [v] is the value of
    the first sheet on which [find_result_in_csv] succeeds; in [run_batch]
    it is the slot of the case's index, and the result sits after the
    Skips.  Equal finite values always pass. *)
Theorem extracted_value_judged_within_epsilon :
  (forall (env : CaseEnv) (tc : TestCase) (output : ForgeOutput)
          (csv_files pre post : list CsvSheet) (csv : CsvSheet) (v : f64),
     ce_tempdir env = Ok tt ->
     ce_write env (run_test_yaml env tc) = Ok tt ->
     ce_forge env (run_test_yaml env tc) = Ok output ->
     status_success output = true ->
     ce_convert_all env = Ok csv_files ->
     csv_files = (pre ++ csv :: post)%list ->
     Forall (fun c => exists e, find_result_in_csv c (tc_expected tc) = Err e) pre ->
     find_result_in_csv csv (tc_expected tc) = Ok v ->
     run_test env tc
     = if ltb (abs (sub v (tc_expected tc))) EPSILON
       then Pass (tc_name tc) (tc_formula tc) (tc_expected tc) v
       else Fail (tc_name tc) (tc_formula tc) (tc_expected tc) (Some v) None) /\
  (forall (env : BatchEnv) (runner : TestRunner) (tc : TestCase) (i : nat)
          (output : ForgeOutput) (csv : CsvFile) (v : f64),
     be_tempdir env = Ok tt ->
     be_write env (batch_yaml (test_cases runner)) = Ok tt ->
     be_forge env (batch_yaml (test_cases runner)) = Ok output ->
     status_success output = true ->
     be_convert env = Ok csv ->
     nth_error (test_cases runner) i = Some tc ->
     nth_error (parse_batch_csv csv (length (test_cases runner))) i = Some (Ok v) ->
     nth_error (run_batch env runner) (length (skip_cases runner) + i)
     = Some (if ltb (abs (sub v (tc_expected tc))) EPSILON
             then Pass (tc_name tc) (tc_formula tc) (tc_expected tc) v
             else Fail (tc_name tc) (tc_formula tc) (tc_expected tc) (Some v) None)) /\
  (forall x : f64,
     ((exists s m e, x = S754_finite s m e) \/ (exists s, x = S754_zero s)) ->
     ltb (abs (sub x x)) EPSILON = true).
Proof.
  split; [|split].
  - intros env tc output csv_files pre post csv v Ht Hw Hf Hs Hc Hfiles Hpre Hv.
    unfold run_test. rewrite Ht, Hw, Hf, Hs, Hc. simpl.
    rewrite Hfiles, search_sheets_skip by exact Hpre. simpl.
    rewrite Hv. reflexivity.
  - intros env runner tc i output csv v Ht Hw Hf Hs Hc Htc Hv.
    unfold run_batch.
    destruct (test_cases runner) as [|tc0 tcs0] eqn:Htcs; [destruct i; discriminate|].
    rewrite Ht, Hw, Hf, Hs, Hc. cbv beta iota zeta delta [negb].
    rewrite nth_error_app2 by (rewrite length_map; lia).
    rewrite length_map, Nat.add_comm, Nat.add_sub.
    rewrite (batch_match_nth _ 0 _ i tc Htc), Nat.add_0_l, Hv. reflexivity.
  - exact sub_self_small.
Qed.

(** C1, counterexample: expected [0], sheet [result,1e-20]: the extracted
    value differs from the expected one, yet [run_test] reports Pass. *)
Lemma tiny_nonzero_difference_passes :
  let tc := mkTestCase "assumptions.tiny" "=1E-20" (S754_zero false) None "1.0.0" in
  let sheet : CsvSheet := Ok [Ok "result,1e-20"] in
  let env := mkCaseEnv None (Ok tt) (fun _ => Ok tt)
                       (fun _ => Ok (mkForgeOutput true EmptyString)) (Ok [sheet]) in
  exists v, find_result_in_csv sheet (tc_expected tc) = Ok v /\
            v <> tc_expected tc /\
            run_test env tc = Pass (tc_name tc) (tc_formula tc) (tc_expected tc) v.
Proof.
  intros tc sheet env.
  exists (S754_finite false 6646139978924579 (-119)).
  split; [vm_compute; reflexivity|].
  split; [discriminate|].
  vm_compute. reflexivity.
Qed.

(** C2 (corrected): [find_result_in_csv] reads cells row by row, left to
    right, and returns at the first accepted cell, testing the label
    before the tolerance at each cell.  A labeled cell's following number
    is returned when every earlier line reads and yields no value and no
    earlier cell of its row is a label or a number within [0.0001] of
    [expected]; a number within the tolerance placed before the label in
    the row is returned instead.  A line that cannot be read, reached
    before any value, ends the search with ["Failed to read line: " ++ e]. *)
Theorem first_accepted_cell_wins :
  (forall (expected : f64) (pre : list string) (post : list CsvLine) (row lab c : string)
          (cs1 cs2 : list string) (v : f64),
     Forall (fun line => scan_row expected (split_cells line) = None) pre ->
     split_cells row = (cs1 ++ lab :: c :: cs2)%list ->
     Forall (inert_cell expected) cs1 ->
     is_result_label lab = true ->
     parse_f64 (remove_commas c) = Some v ->
     find_result_in_csv (Ok (map Ok pre ++ Ok row :: post)%list) expected = Ok v) /\
  (forall (expected : f64) (pre : list string) (post : list CsvLine) (row cell : string)
          (cs1 cs2 : list string) (x : f64),
     Forall (fun line => scan_row expected (split_cells line) = None) pre ->
     split_cells row = (cs1 ++ cell :: cs2)%list ->
     Forall (inert_cell expected) cs1 ->
     is_result_label cell = false ->
     parse_f64 (remove_commas cell) = Some x ->
     near_expected x expected = true ->
     find_result_in_csv (Ok (map Ok pre ++ Ok row :: post)%list) expected = Ok x) /\
  (forall (expected : f64) (pre : list string) (e : string) (post : list CsvLine),
     Forall (fun line => scan_row expected (split_cells line) = None) pre ->
     find_result_in_csv (Ok (map Ok pre ++ Err e :: post)%list) expected
     = Err ("Failed to read line: " ++ e)).
Proof.
  split; [|split].
  - intros expected pre post row lab c cs1 cs2 v Hpre Hrow Hcs1 Hlab Hv.
    unfold find_result_in_csv. rewrite scan_lines_skip by exact Hpre.
    simpl. rewrite Hrow, scan_row_inert by exact Hcs1.
    simpl. rewrite Hlab, Hv. reflexivity.
  - intros expected pre post row cell cs1 cs2 x Hpre Hrow Hcs1 Hlab Hx Hnear.
    unfold find_result_in_csv. rewrite scan_lines_skip by exact Hpre.
    simpl. rewrite Hrow, scan_row_inert by exact Hcs1.
    simpl. rewrite Hlab, Hx, Hnear. reflexivity.
  - intros expected pre e post Hpre.
    unfold find_result_in_csv. rewrite scan_lines_skip by exact Hpre. reflexivity.
Qed.

(** C2, counterexample: in the row [42,result,7] with expected [42], the
    labeled cell is followed by the number [7], yet [42] is returned. *)
Lemma tolerance_match_before_label_wins :
  split_cells "42,result,7" = ["42"; "result"; "7"] /\
  parse_f64 "7" = Some (of_decimal false 7 0) /\
  find_result_in_csv (Ok [Ok "42,result,7"]) (of_decimal false 42 0)
    = Ok (of_decimal false 42 0) /\
  of_decimal false 42 0 <> of_decimal false 7 0.
Proof.
  split; [vm_compute; reflexivity|].
  split; [vm_compute; reflexivity|].
  split; [vm_compute; reflexivity|].
  vm_compute. discriminate.
Qed.

End MatchClaims.

(** ** Batch extraction ([parse_batch_csv]) *)

Module BatchProofs.

Local Open Scope nat_scope.

Lemma set_nth_length {A : Type} (n : nat) (x : A) (l : list A) :
  length (set_nth n x l) = length l.
Proof.
  revert n. induction l as [|y l IH]; intros [|n]; simpl; auto.
Qed.

Lemma set_nth_same {A : Type} (n : nat) (x : A) (l : list A) :
  n < length l -> nth_error (set_nth n x l) n = Some x.
Proof.
  revert n. induction l as [|y l IH]; intros [|n] H; simpl in H |- *; try lia; auto.
  apply IH. lia.
Qed.

Lemma set_nth_other {A : Type} (i n : nat) (x : A) (l : list A) :
  i <> n -> nth_error (set_nth n x l) i = nth_error l i.
Proof.
  revert i n. induction l as [|y l IH]; intros [|i] [|n] H; simpl; auto; try lia.
Qed.

Lemma set_nth_comm {A : Type} (i j : nat) (a b : A) (l : list A) :
  i <> j -> set_nth i a (set_nth j b l) = set_nth j b (set_nth i a l).
Proof.
  revert i j. induction l as [|y l IH]; intros [|i] [|j] H; simpl; auto; try lia.
  f_equal. apply IH. lia.
Qed.

Lemma batch_line_entry_bound count line i v :
  batch_line_entry count line = Some (i, v) -> i < count.
Proof.
  unfold batch_line_entry.
  destruct (split_cells line) as [|label [|cell1 rest]]; try discriminate.
  destruct (batch_label_index label); try discriminate.
  destruct (parse_usize s) as [idx|]; try discriminate.
  destruct (N.ltb_spec idx (N.of_nat count)) as [Hlt|]; try discriminate.
  destruct (parse_f64 (remove_commas cell1)); try discriminate.
  intros H. inversion H; subst. lia.
Qed.

Lemma batch_step_length count acc line :
  length (batch_step count acc line) = length acc.
Proof.
  unfold batch_step.
  destruct (batch_line_entry count line) as [[j w]|]; [apply set_nth_length|reflexivity].
Qed.

Lemma batch_fold_length count lines acc :
  length (fold_left (batch_step count) lines acc) = length acc.
Proof.
  revert acc. induction lines as [|l lines IH]; intros acc; [reflexivity|].
  simpl. rewrite IH. apply batch_step_length.
Qed.

Lemma batch_step_entry count acc line j w :
  batch_line_entry count line = Some (j, w) ->
  batch_step count acc line = set_nth j (Ok w) acc.
Proof. intros H. unfold batch_step. rewrite H. reflexivity. Qed.

(** A line that supplies no value for slot [i] leaves it unchanged. *)
Lemma batch_step_other count acc line i :
  (forall w, batch_line_entry count line <> Some (i, w)) ->
  nth_error (batch_step count acc line) i = nth_error acc i.
Proof.
  unfold batch_step. intros H.
  destruct (batch_line_entry count line) as [[j w]|] eqn:He; [|reflexivity].
  apply set_nth_other. intros ->. exact (H w eq_refl).
Qed.

Lemma batch_fold_other count lines acc i :
  (forall l w, In l lines -> batch_line_entry count l <> Some (i, w)) ->
  nth_error (fold_left (batch_step count) lines acc) i = nth_error acc i.
Proof.
  revert acc. induction lines as [|l lines IH]; intros acc H; [reflexivity|].
  simpl. rewrite IH by (intros l' w Hin; apply H; right; exact Hin).
  apply batch_step_other. intros w. apply H. left. reflexivity.
Qed.

(** Slot [i] of the result is either the value of the last line
    supplying [i], or the missing-result error when no line does. *)
Lemma batch_slot_cases count lines i :
  i < count ->
  (exists pre line post v,
      lines = (pre ++ line :: post)%list /\
      batch_line_entry count line = Some (i, v) /\
      (forall l w, In l post -> batch_line_entry count l <> Some (i, w)) /\
      nth_error (parse_batch_csv (Ok lines) count) i = Some (Ok v)) \/
  ((forall l w, In l lines -> batch_line_entry count l <> Some (i, w)) /\
   nth_error (parse_batch_csv (Ok lines) count) i = Some (Err MISSING)).
Proof.
  intros Hi. unfold parse_batch_csv.
  induction lines as [|l lines IH] using rev_ind.
  - right. split; [intros l w []|]. apply nth_error_repeat. exact Hi.
  - rewrite fold_left_app. cbn [fold_left].
    destruct (batch_line_entry count l) as [[j w]|] eqn:He.
    + destruct (Nat.eq_dec j i) as [->|Hne].
      * left. exists lines, l, [], w.
        split; [reflexivity|]. split; [exact He|]. split; [intros l' w' []|].
        rewrite (batch_step_entry _ _ _ _ _ He). apply set_nth_same.
        rewrite batch_fold_length, repeat_length. exact Hi.
      * assert (Hl : forall w', batch_line_entry count l <> Some (i, w'))
          by (intros w' Heq; rewrite He in Heq; inversion Heq; lia).
        rewrite batch_step_other by exact Hl.
        destruct IH as [(pre & line & post & v & Hlines & Hline & Hpost & Hv)
                       |(Hnone & Hmiss)].
        -- left. exists pre, line, (post ++ [l])%list, v.
           split; [rewrite Hlines, <- app_assoc; reflexivity|].
           split; [exact Hline|]. split; [|exact Hv].
           intros l' w' Hin. apply in_app_or in Hin as [Hin|[<-|[]]].
           ++ exact (Hpost l' w' Hin).
           ++ exact (Hl w').
        -- right. split; [|exact Hmiss].
           intros l' w' Hin. apply in_app_or in Hin as [Hin|[<-|[]]].
           ++ exact (Hnone l' w' Hin).
           ++ exact (Hl w').
    + assert (Hl : forall w', batch_line_entry count l <> Some (i, w'))
        by (intros w' Heq; rewrite He in Heq; discriminate).
      rewrite batch_step_other by exact Hl.
      destruct IH as [(pre & line & post & v & Hlines & Hline & Hpost & Hv)
                     |(Hnone & Hmiss)].
      * left. exists pre, line, (post ++ [l])%list, v.
        split; [rewrite Hlines, <- app_assoc; reflexivity|].
        split; [exact Hline|]. split; [|exact Hv].
        intros l' w' Hin. apply in_app_or in Hin as [Hin|[<-|[]]].
        -- exact (Hpost l' w' Hin).
        -- exact (Hl w').
      * right. split; [|exact Hmiss].
        intros l' w' Hin. apply in_app_or in Hin as [Hin|[<-|[]]].
        -- exact (Hnone l' w' Hin).
        -- exact (Hl w').
Qed.

Lemma batch_steps_comm count acc x y :
  (forall i v w, batch_line_entry count x = Some (i, v) ->
                 batch_line_entry count y <> Some (i, w)) ->
  batch_step count (batch_step count acc x) y
  = batch_step count (batch_step count acc y) x.
Proof.
  intros H. unfold batch_step.
  destruct (batch_line_entry count x) as [[i v]|] eqn:Hx;
  destruct (batch_line_entry count y) as [[j w]|] eqn:Hy; try reflexivity.
  apply set_nth_comm. intros Heq. subst j. exact (H i v w eq_refl eq_refl).
Qed.

Lemma batch_entries_cons count x l :
  batch_entries count (x :: l)
  = ((match batch_line_entry count x with Some p => [p] | None => [] end)
     ++ batch_entries count l)%list.
Proof. reflexivity. Qed.

Lemma batch_entries_perm count l1 l2 :
  Permutation l1 l2 -> Permutation (batch_entries count l1) (batch_entries count l2).
Proof.
  intros H. unfold batch_entries. apply Permutation_flat_map. exact H.
Qed.

Lemma batch_fold_perm count l1 l2 acc :
  Permutation l1 l2 ->
  NoDup (map fst (batch_entries count l1)) ->
  fold_left (batch_step count) l1 acc = fold_left (batch_step count) l2 acc.
Proof.
  intros Hp. revert acc. induction Hp as [|x l1 l2 Hp IH|x y l|l1 l2 l3 H12 IH12 H23 IH23];
    intros acc Hnd.
  - reflexivity.
  - simpl. apply IH. rewrite batch_entries_cons, map_app in Hnd.
    exact (NoDup_app_remove_l _ _ Hnd).
  - simpl. rewrite batch_steps_comm; [reflexivity|].
    intros i v w Hx Hy.
    rewrite !batch_entries_cons, Hy, Hx in Hnd. simpl in Hnd.
    inversion Hnd as [|a b Hnin _]. apply Hnin. left. reflexivity.
  - rewrite (IH12 acc Hnd). apply IH23.
    apply (Permutation_NoDup (l := map fst (batch_entries count l1))); [|exact Hnd].
    apply Permutation_map, batch_entries_perm. exact H12.
Qed.

End BatchProofs.

Module BatchClaims.

Import BatchProofs.

Local Open Scope nat_scope.

(** C6 (corrected): [parse_batch_csv] returns [count] slots.  For
    [i < count], slot [i] holds [Ok v] exactly when some line supplies
    [(i, v)] (its first cell is [test_i] or [assumptions.test_i] with [i]
    a [usize] below [count], its second cell parses as [v] once commas
    are removed) and no later line supplies [i]: the last such line wins.
    Slot [i] holds the missing-result error exactly when no line supplies
    [i]; every slot is one of the two. *)
Theorem batch_slot_holds_last_supplied_value :
  forall (lines : list string) (count : nat),
    length (parse_batch_csv (Ok lines) count) = count /\
    forall i : nat, i < count ->
      (forall v : f64,
         nth_error (parse_batch_csv (Ok lines) count) i = Some (Ok v) <->
         exists pre line post,
           lines = (pre ++ line :: post)%list /\
           batch_line_entry count line = Some (i, v) /\
           forall l w, In l post -> batch_line_entry count l <> Some (i, w)) /\
      (nth_error (parse_batch_csv (Ok lines) count) i = Some (Err MISSING) <->
         forall l w, In l lines -> batch_line_entry count l <> Some (i, w)) /\
      (exists r, nth_error (parse_batch_csv (Ok lines) count) i = Some r /\
                 (r = Err MISSING \/ exists v, r = Ok v)).
Proof.
  intros lines count. split.
  { unfold parse_batch_csv. rewrite batch_fold_length. apply repeat_length. }
  intros i Hi. split; [|split].
  - intros v. split.
    + intros Hv. destruct (batch_slot_cases count lines i Hi)
        as [(pre & line & post & v' & Hl & He & Hpost & Hv')|(_ & Hmiss)].
      * rewrite Hv in Hv'. inversion Hv'; subst v'.
        exists pre, line, post. auto.
      * rewrite Hv in Hmiss. discriminate.
    + intros (pre & line & post & -> & He & Hpost).
      unfold parse_batch_csv. rewrite fold_left_app. cbn [fold_left].
      rewrite batch_fold_other by exact Hpost.
      rewrite (batch_step_entry _ _ _ _ _ He). apply set_nth_same.
      rewrite batch_fold_length, repeat_length. exact Hi.
  - split.
    + intros Hmiss. destruct (batch_slot_cases count lines i Hi)
        as [(pre & line & post & v' & Hl & He & Hpost & Hv')|(Hnone & _)].
      * rewrite Hmiss in Hv'. discriminate.
      * exact Hnone.
    + intros Hnone. unfold parse_batch_csv.
      rewrite batch_fold_other by exact Hnone. apply nth_error_repeat. exact Hi.
  - destruct (batch_slot_cases count lines i Hi)
      as [(pre & line & post & v & _ & _ & _ & Hv)|(_ & Hmiss)].
    + exists (Ok v). split; [exact Hv|]. right. exists v. reflexivity.
    + exists (Err MISSING). split; [exact Hmiss|]. left. reflexivity.
Qed.

(** C6, counterexample: with the lines [test_0,1] and [test_0,2] and
    [count = 1], the first line supplies [(0, 1)], yet slot [0] holds
    [Ok 2]. *)
Lemma earlier_supplied_value_overwritten :
  batch_line_entry 1 "test_0,1" = Some (0, S754_finite false 4503599627370496 (-52)) /\
  parse_batch_csv (Ok ["test_0,1"; "test_0,2"]) 1
    = [Ok (S754_finite false 4503599627370496 (-51))] /\
  S754_finite false 4503599627370496 (-52) <> S754_finite false 4503599627370496 (-51).
Proof.
  split; [vm_compute; reflexivity|].
  split; [vm_compute; reflexivity|].
  discriminate.
Qed.

(** C7 (corrected): permuting the lines leaves the result of
    [parse_batch_csv] unchanged when no two lines supply the same slot;
    the slot-index pairs are the list [batch_entries]. *)
Theorem batch_extraction_permutation_invariant :
  forall (l1 l2 : list string) (count : nat),
    Permutation l1 l2 ->
    NoDup (map fst (batch_entries count l1)) ->
    parse_batch_csv (Ok l1) count = parse_batch_csv (Ok l2) count.
Proof.
  intros l1 l2 count Hp Hnd. unfold parse_batch_csv.
  apply batch_fold_perm; assumption.
Qed.

(** C7, counterexample: swapping two lines that supply slot [0] with
    different values changes the result. *)
Lemma line_order_changes_batch_result :
  Permutation ["test_0,1"; "test_0,2"] ["test_0,2"; "test_0,1"] /\
  parse_batch_csv (Ok ["test_0,1"; "test_0,2"]) 1
    <> parse_batch_csv (Ok ["test_0,2"; "test_0,1"]) 1.
Proof.
  split; [apply perm_swap|].
  vm_compute. discriminate.
Qed.

End BatchClaims.

(** * Instances of the theorems on concrete inputs *)

Module Witnesses.

Local Open Scope nat_scope.

Lemma skip_entry_only_in_skip_list_witness :
  let spec := mkTestSpec "1.0.0"
    [("assumptions",
      ScalarGroup [("a", mkScalar None (Some "=1") (Some (of_decimal false 1 0)) None);
                   ("b", mkScalar None (Some "=2") (Some (of_decimal false 2 0)) (Some "slow"))])] in
  In (mkSkipCase (qualified "assumptions" "b") "slow") (extract_skip_cases spec) /\
  ~ In ("assumptions", "b") (map fst (extract_test_cases_traced spec None)) /\
  map snd (extract_test_cases_traced spec None) = extract_test_cases spec None.
Proof.
  intros spec.
  apply (ExtractClaims.skip_entry_only_in_skip_list spec None "assumptions" "b"
           [("a", mkScalar None (Some "=1") (Some (of_decimal false 1 0)) None);
            ("b", mkScalar None (Some "=2") (Some (of_decimal false 2 0)) (Some "slow"))]
           (mkScalar None (Some "=2") (Some (of_decimal false 2 0)) (Some "slow")) "slow").
  - simpl. repeat constructor. intros [].
  - simpl. repeat constructor; simpl; intuition discriminate.
  - simpl. left. reflexivity.
  - reflexivity.
  - simpl. right. left. reflexivity.
  - reflexivity.
Defined.

Lemma runnable_entry_yields_one_case_witness :
  let spec := mkTestSpec "1.0.0"
    [("assumptions",
      ScalarGroup [("a", mkScalar None (Some "=1") (Some (of_decimal false 1 0)) None);
                   ("b", mkScalar None (Some "=2") (Some (of_decimal false 2 0)) (Some "slow"))])] in
  filter (fun p => key_eqb (fst p) ("assumptions", "a")) (extract_test_cases_traced spec None)
    = [(("assumptions", "a"),
        mkTestCase (qualified "assumptions" "a") "=1" (of_decimal false 1 0) None "1.0.0")] /\
  map snd (extract_test_cases_traced spec None) = extract_test_cases spec None.
Proof.
  intros spec.
  apply (ExtractClaims.runnable_entry_yields_one_case spec None "assumptions" "a"
           [("a", mkScalar None (Some "=1") (Some (of_decimal false 1 0)) None);
            ("b", mkScalar None (Some "=2") (Some (of_decimal false 2 0)) (Some "slow"))]
           (mkScalar None (Some "=1") (Some (of_decimal false 1 0)) None)
           "=1" (of_decimal false 1 0)).
  - simpl. repeat constructor. intros [].
  - simpl. repeat constructor; simpl; intuition discriminate.
  - simpl. left. reflexivity.
  - reflexivity.
  - simpl. left. reflexivity.
  - reflexivity.
  - reflexivity.
  - reflexivity.
Defined.

Lemma table_section_rendered_unless_excluded_witness :
  let cols := [("values", Numbers [of_decimal false 10 0; of_decimal false 50 0])] in
  let spec := mkTestSpec "1.0.0"
    [("assumptions", ScalarGroup []); ("agg_data", Table cols)] in
  (exists pre post, extract_table_data_yaml spec = pre ++ table_block "agg_data" cols ++ post) /\
  extract_table_data_yaml spec
  = extract_table_data_yaml (mkTestSpec (forge_version spec)
                                        (filter kept_table_section (sections spec))).
Proof.
  intros cols spec.
  apply (TableClaims.table_section_rendered_unless_excluded spec "agg_data" cols).
  - simpl. right. left. reflexivity.
  - reflexivity.
Defined.

Lemma batch_infra_failure_fails_every_case_witness :
  let tc := mkTestCase "assumptions.a" "=1" (of_decimal false 1 0) None "1.0.0" in
  let runner := mkTestRunner [tc] [mkSkipCase "assumptions.b" "slow"] in
  let env := mkBatchEnv (Err "no space") (fun _ => Ok tt)
                        (fun _ => Ok (mkForgeOutput true EmptyString)) (Err "unused") in
  exists msg,
    run_batch env runner
    = (map skip_result (skip_cases runner)
       ++ map (fun tc => Fail (tc_name tc) (tc_formula tc) (tc_expected tc) None (Some msg))
              (test_cases runner))%list.
Proof.
  intros tc runner env.
  apply (RunnerClaims.batch_infra_failure_fails_every_case env runner).
  left. exists "no space". reflexivity.
Defined.

Lemma extracted_value_judged_within_epsilon_witness :
  let one := of_decimal false 1 0 in
  let tc := mkTestCase "assumptions.a" "=1" one None "1.0.0" in
  let sheet : CsvSheet := Ok [Ok "name,result,1"] in
  let cenv := mkCaseEnv None (Ok tt) (fun _ => Ok tt)
                        (fun _ => Ok (mkForgeOutput true EmptyString))
                        (Ok [Err "empty sheet"; sheet]) in
  let runner := mkTestRunner [tc] [] in
  let benv := mkBatchEnv (Ok tt) (fun _ => Ok tt)
                         (fun _ => Ok (mkForgeOutput true EmptyString))
                         (Ok (Ok ["test_0,1"])) in
  run_test cenv tc
  = (if ltb (abs (sub one (tc_expected tc))) EPSILON
     then Pass (tc_name tc) (tc_formula tc) (tc_expected tc) one
     else Fail (tc_name tc) (tc_formula tc) (tc_expected tc) (Some one) None) /\
  nth_error (run_batch benv runner) (length (skip_cases runner) + 0)
  = Some (if ltb (abs (sub one (tc_expected tc))) EPSILON
          then Pass (tc_name tc) (tc_formula tc) (tc_expected tc) one
          else Fail (tc_name tc) (tc_formula tc) (tc_expected tc) (Some one) None) /\
  ltb (abs (sub one one)) EPSILON = true.
Proof.
  intros one tc sheet cenv runner benv.
  destruct MatchClaims.extracted_value_judged_within_epsilon as [Hcase [Hbatch Hself]].
  split; [|split].
  - apply (Hcase cenv tc (mkForgeOutput true EmptyString)
                 [Err "empty sheet"; sheet] [Err "empty sheet"] [] sheet one);
      try reflexivity.
    constructor; [|constructor]. eexists. reflexivity.
  - apply (Hbatch benv runner tc 0 (mkForgeOutput true EmptyString) (Ok ["test_0,1"]) one);
      reflexivity.
  - apply Hself. left. exists false, 4503599627370496%positive, (-52)%Z. reflexivity.
Defined.

Lemma first_accepted_cell_wins_witness :
  let expected := of_decimal false 42 0 in
  find_result_in_csv (Ok [Ok "x,y"; Ok "name,result,7"; Ok "tail"]) expected
    = Ok (of_decimal false 7 0) /\
  find_result_in_csv (Ok [Ok "x,y"; Ok "name,42.00001,result,7"]) expected
    = Ok (of_decimal false 4200001 (-5)) /\
  find_result_in_csv (Ok [Ok "x,y"; Err "stream did not contain valid UTF-8"; Ok "result,42"])
                     expected
    = Err ("Failed to read line: " ++ "stream did not contain valid UTF-8").
Proof.
  intros expected.
  destruct MatchClaims.first_accepted_cell_wins as [Hlab [Hnear Hread]]. split; [|split].
  - apply (Hlab expected ["x,y"] [Ok "tail"] "name,result,7" "result" "7" ["name"] []).
    + constructor; [vm_compute; reflexivity|constructor].
    + vm_compute. reflexivity.
    + constructor; [|constructor].
      split; [vm_compute; reflexivity|].
      intros x Hx. vm_compute in Hx. discriminate.
    + reflexivity.
    + vm_compute. reflexivity.
  - apply (Hnear expected ["x,y"] [] "name,42.00001,result,7" "42.00001"
                 ["name"] ["result"; "7"]).
    + constructor; [vm_compute; reflexivity|constructor].
    + vm_compute. reflexivity.
    + constructor; [|constructor].
      split; [vm_compute; reflexivity|].
      intros x Hx. vm_compute in Hx. discriminate.
    + reflexivity.
    + vm_compute. reflexivity.
    + vm_compute. reflexivity.
  - apply (Hread expected ["x,y"] "stream did not contain valid UTF-8" [Ok "result,42"]).
    constructor; [vm_compute; reflexivity|constructor].
Defined.

Lemma batch_slot_holds_last_supplied_value_witness :
  length (parse_batch_csv (Ok ["header,x"; "test_0,1"]) 2) = 2 /\
  nth_error (parse_batch_csv (Ok ["header,x"; "test_0,1"]) 2) 0
    = Some (Ok (of_decimal false 1 0)) /\
  nth_error (parse_batch_csv (Ok ["header,x"; "test_0,1"]) 2) 1 = Some (Err MISSING).
Proof.
  destruct (BatchClaims.batch_slot_holds_last_supplied_value ["header,x"; "test_0,1"] 2)
    as [Hlen Hslots].
  split; [exact Hlen|split].
  - destruct (Hslots 0 ltac:(lia)) as [Hok _].
    apply (proj2 (Hok (of_decimal false 1 0))).
    exists ["header,x"], "test_0,1", []. split; [reflexivity|split].
    + vm_compute. reflexivity.
    + intros l w [].
  - destruct (Hslots 1 ltac:(lia)) as [_ [Hmiss _]].
    apply (proj2 Hmiss).
    intros l w [<-|[<-|[]]]; vm_compute; discriminate.
Defined.

Lemma batch_extraction_permutation_invariant_witness :
  parse_batch_csv (Ok ["test_0,1"; "test_1,2"]) 2
  = parse_batch_csv (Ok ["test_1,2"; "test_0,1"]) 2.
Proof.
  apply BatchClaims.batch_extraction_permutation_invariant.
  - apply perm_swap.
  - vm_compute. repeat constructor; simpl; intuition discriminate.
Defined.

End Witnesses.

(** * Further properties of the runners *)

Module RunnerFacts.

Import BatchProofs.

Local Open Scope nat_scope.

Lemma streaming_skips_exact {St : Type} (on_result : St -> TestResult -> St) skips acc st :
  fold_left (fun '(results, st) skip_case =>
               let result := skip_result skip_case in
               ((results ++ [result])%list, on_result st result))
            skips (acc, st)
  = ((acc ++ map skip_result skips)%list, fold_left on_result (map skip_result skips) st).
Proof.
  revert acc st. induction skips as [|sc skips IH]; intros acc st; cbn [fold_left map].
  - now rewrite app_nil_r.
  - simpl. rewrite IH, <- app_assoc. reflexivity.
Qed.

Lemma streaming_tests_exact {St : Type} (on_result : St -> TestResult -> St) envs tcs acc st k :
  fold_left (fun '(results, st, k) tc =>
               let result := run_test (envs k) tc in
               ((results ++ [result])%list, on_result st result, S k))
            tcs (acc, st, k)
  = ((acc ++ run_tests envs k tcs)%list, fold_left on_result (run_tests envs k tcs) st,
     k + length tcs).
Proof.
  revert acc st k. induction tcs as [|tc tcs IH]; intros acc st k; cbn [fold_left length].
  - now rewrite app_nil_r, Nat.add_0_r.
  - simpl. rewrite IH, <- app_assoc, Nat.add_succ_r. reflexivity.
Qed.

Lemma streaming_is_run_all {St : Type} (on_result : St -> TestResult -> St) st0 envs runner :
  run_all_streaming on_result st0 envs runner
  = (run_all envs runner, fold_left on_result (run_all envs runner) st0).
Proof.
  unfold run_all_streaming, run_all.
  match goal with
  | |- context [fold_left ?f (skip_cases runner) ([], st0)] =>
      replace (fold_left f (skip_cases runner) ([], st0))
        with (map skip_result (skip_cases runner),
              fold_left on_result (map skip_result (skip_cases runner)) st0)
        by (symmetry; apply streaming_skips_exact)
  end.
  match goal with
  | |- context [fold_left ?f (test_cases runner) (?a, ?s, O)] =>
      replace (fold_left f (test_cases runner) (a, s, O))
        with ((a ++ run_tests envs 0 (test_cases runner))%list,
              fold_left on_result (run_tests envs 0 (test_cases runner)) s,
              0 + length (test_cases runner))
        by (symmetry; apply streaming_tests_exact)
  end.
  rewrite fold_left_app. reflexivity.
Qed.

Lemma judge_consistent tc a : consistent_result tc (judge tc a).
Proof.
  unfold judge. destruct (ltb _ _) eqn:H; simpl; auto.
Qed.

Lemma fail_with_consistent tc msg : consistent_result tc (fail_with tc msg).
Proof. simpl. auto. Qed.

Lemma search_sheets_consistent tc files : consistent_result tc (search_sheets tc files).
Proof.
  induction files as [|f files IH]; cbn [search_sheets]; [apply fail_with_consistent|].
  destruct (find_result_in_csv f (tc_expected tc)); [apply judge_consistent|exact IH].
Qed.

Lemma run_test_consistent env tc : consistent_result tc (run_test env tc).
Proof.
  unfold run_test.
  destruct (ce_tempdir env); [|apply fail_with_consistent].
  destruct (ce_write env _); [|apply fail_with_consistent].
  destruct (ce_forge env _) as [o|]; [|apply fail_with_consistent].
  destruct (negb (status_success o)); [apply fail_with_consistent|].
  destruct (ce_convert_all env); [apply search_sheets_consistent|apply fail_with_consistent].
Qed.

Lemma run_tests_consistent envs k tcs : Forall2 consistent_result tcs (run_tests envs k tcs).
Proof.
  revert k. induction tcs as [|tc tcs IH]; intros k; cbn [run_tests]; constructor; auto.
  apply run_test_consistent.
Qed.

Lemma batch_match_consistent r k tcs : Forall2 consistent_result tcs (batch_match r k tcs).
Proof.
  revert k. induction tcs as [|tc tcs IH]; intros k; cbn [batch_match]; constructor; auto.
  destruct (nth_error r k) as [[a|e]|];
    [apply judge_consistent|apply fail_with_consistent|apply fail_with_consistent].
Qed.

Lemma fail_all_consistent msg tcs :
  Forall2 consistent_result tcs (map (fun tc => fail_with tc msg) tcs).
Proof. induction tcs; cbn [map]; constructor; auto using fail_with_consistent. Qed.

Lemma run_batch_shape (P : TestCase -> TestResult -> Prop) env runner :
  (forall tc a, P tc (judge tc a)) ->
  (forall tc msg, P tc (fail_with tc msg)) ->
  exists rest,
    run_batch env runner = (map skip_result (skip_cases runner) ++ rest)%list /\
    Forall2 P (test_cases runner) rest.
Proof.
  intros Hj Hf.
  assert (Hall : forall msg tcs, Forall2 P tcs (map (fun tc => fail_with tc msg) tcs))
    by (intros msg tcs; induction tcs; simpl; constructor; auto).
  assert (Hm : forall r k tcs, Forall2 P tcs (batch_match r k tcs)).
  { intros r k tcs. revert k. induction tcs as [|tc tcs IH]; intros k; simpl; constructor; auto.
    destruct (nth_error r k) as [[a|e]|]; auto. }
  unfold run_batch.
  destruct (test_cases runner) as [|tc0 tcs0] eqn:Htcs.
  - exists []. split; [now rewrite app_nil_r|constructor].
  - rewrite <- Htcs.
    destruct (be_tempdir env); [|eexists; split; [reflexivity|apply Hall]].
    destruct (be_write env _); [|eexists; split; [reflexivity|apply Hall]].
    destruct (be_forge env _) as [o|]; [|eexists; split; [reflexivity|apply Hall]].
    destruct (negb (status_success o)); [eexists; split; [reflexivity|apply Hall]|].
    destruct (be_convert env); [|eexists; split; [reflexivity|apply Hall]].
    eexists; split; [reflexivity|apply Hm].
Qed.

Lemma run_all_shape (P : TestCase -> TestResult -> Prop) envs runner :
  (forall env tc, P tc (run_test env tc)) ->
  exists rest,
    run_all envs runner = (map skip_result (skip_cases runner) ++ rest)%list /\
    Forall2 P (test_cases runner) rest.
Proof.
  intros H. exists (run_tests envs 0 (test_cases runner)). split; [reflexivity|].
  generalize 0. induction (test_cases runner) as [|tc tcs IH]; intros k; simpl; constructor; auto.
Qed.

Lemma batch_match_repeat m n k tcs :
  k + length tcs <= n ->
  batch_match (repeat (Err m) n) k tcs = map (fun tc => fail_with tc m) tcs.
Proof.
  revert k. induction tcs as [|tc tcs IH]; intros k H; [reflexivity|].
  simpl in H |- *. rewrite nth_error_repeat by lia. f_equal. apply IH. lia.
Qed.

Lemma in_set_nth {A : Type} (n : nat) (x y : A) (l : list A) :
  In y (set_nth n x l) -> y = x \/ In y l.
Proof.
  revert n. induction l as [|z l IH]; intros [|n] H; simpl in H.
  - destruct H.
  - destruct H.
  - destruct H as [<-|H]; [left; reflexivity|right; right; exact H].
  - destruct H as [<-|H]; [right; left; reflexivity|].
    destruct (IH n H) as [->|H']; [left; reflexivity|right; right; exact H'].
Qed.

Lemma batch_fold_errors count lines acc :
  (forall e0, In (Err e0) acc -> e0 = MISSING) ->
  forall e0, In (Err e0) (fold_left (batch_step count) lines acc) -> e0 = MISSING.
Proof.
  revert acc. induction lines as [|l lines IH]; intros acc Hacc; simpl; [exact Hacc|].
  apply IH. intros e0 Hx. unfold batch_step in Hx.
  destruct (batch_line_entry count l) as [[j w]|].
  - apply in_set_nth in Hx as [Hx|Hx]; [discriminate|exact (Hacc _ Hx)].
  - exact (Hacc _ Hx).
Qed.

(** The errors a slot of [parse_batch_csv] can hold. *)
Lemma batch_slot_errors csv count e :
  In (Err e) (parse_batch_csv csv count) ->
  e = MISSING \/ exists e', csv = Err e' /\ e = ("Failed to open CSV: " ++ e')%string.
Proof.
  destruct csv as [lines|e']; simpl.
  - intros H. left. revert H. apply batch_fold_errors.
    intros e0 Hx. apply repeat_spec in Hx. congruence.
  - intros H. apply repeat_spec in H. right. exists e'. split; [reflexivity|congruence].
Qed.

Lemma parse_batch_csv_length csv count : length (parse_batch_csv csv count) = count.
Proof.
  destruct csv as [lines|e]; simpl; [|apply repeat_length].
  rewrite batch_fold_length. apply repeat_length.
Qed.

(** Every result [batch_match] builds on a slot vector long enough is a
    judgement or carries one of the slot errors. *)
Lemma batch_match_in r k tcs x :
  k + length tcs <= length r ->
  In x (batch_match r k tcs) ->
  exists tc, (exists a, x = judge tc a) \/ (exists e, In (Err e) r /\ x = fail_with tc e).
Proof.
  revert k. induction tcs as [|tc tcs IH]; intros k Hlen Hx; [destruct Hx|].
  simpl in Hlen, Hx. destruct Hx as [<-|Hx]; [|apply (IH (S k)); [lia|exact Hx]].
  exists tc.
  destruct (nth_error r k) as [[a|e]|] eqn:Hk.
  - left. exists a. reflexivity.
  - right. exists e. split; [exact (nth_error_In _ _ Hk)|reflexivity].
  - apply nth_error_None in Hk. lia.
Qed.

Lemma count_filter_shape (rest : list TestResult) tcs :
  Forall2 verdict tcs rest ->
  length (filter is_skip rest) = 0 /\
  length (filter is_pass rest) + length (filter is_fail rest) = length tcs.
Proof.
  induction 1 as [|tc r tcs rest [_ Hv] _ [IH1 IH2]]; [auto|].
  destruct r; simpl in Hv |- *; try discriminate; split; lia.
Qed.

Lemma count_filter_skips (skips : list SkipCase) :
  length (filter is_skip (map skip_result skips)) = length skips /\
  filter is_pass (map skip_result skips) = [] /\
  filter is_fail (map skip_result skips) = [].
Proof.
  induction skips as [|sc skips [IH1 [IH2 IH3]]]; simpl; auto.
Qed.

Lemma verdict_of_consistent tc r : consistent_result tc r -> verdict tc r.
Proof.
  unfold verdict. destruct r as [n f e a|n f e [a|] [m|]|n reason]; simpl; intuition.
Qed.

Lemma summary_of_shape runner rest :
  Forall2 verdict (test_cases runner) rest ->
  let '(passed, failed, skipped) :=
    summary_counts (map skip_result (skip_cases runner) ++ rest)%list in
  skipped = length (skip_cases runner) /\
  passed + failed = length (test_cases runner) /\
  passed + failed + skipped = total_tests runner /\
  (exit_code (map skip_result (skip_cases runner) ++ rest)%list = 0
   <-> passed = length (test_cases runner)).
Proof.
  intros H. destruct (count_filter_shape rest _ H) as [H1 H2].
  destruct (count_filter_skips (skip_cases runner)) as [S1 [S2 S3]].
  unfold exit_code, summary_counts, total_tests.
  rewrite !filter_app, !length_app, S2, S3, S1, H1. simpl.
  split; [lia|]. split; [lia|]. split; [lia|].
  destruct (0 <? length (filter is_fail rest)) eqn:Hf;
    [apply Nat.ltb_lt in Hf|apply Nat.ltb_ge in Hf]; split; intros; lia.
Qed.

End RunnerFacts.

(** ** Facts on [find_result_in_csv] *)

Module MatchFacts.

Local Open Scope nat_scope.

Lemma label_not_number c : is_result_label c = true -> parse_f64 (remove_commas c) = None.
Proof.
  unfold is_result_label. intros H.
  apply orb_true_iff in H as [H|H]; apply String.eqb_eq in H; subst c;
    vm_compute; reflexivity.
Qed.

Lemma accepted_S e c rest i v :
  accepted_cell e (c :: rest) (S i) v <-> accepted_cell e rest i v.
Proof. unfold accepted_cell. simpl. reflexivity. Qed.

Lemma accepted_0 e c rest v :
  accepted_cell e (c :: rest) 0 v <->
  (is_result_label c = true /\
   exists next, nth_error rest 0 = Some next /\ parse_f64 (remove_commas next) = Some v)
  \/ (parse_f64 (remove_commas c) = Some v /\ near_expected v e = true).
Proof.
  unfold accepted_cell. simpl. split.
  - intros [cell [Hc H]]. inversion Hc; subst. exact H.
  - intros H. exists c. split; [reflexivity|exact H].
Qed.

Lemma accepted_unique e cells i v w :
  accepted_cell e cells i v -> accepted_cell e cells i w -> v = w.
Proof.
  intros [c [Hc H1]] [c' [Hc' H2]]. rewrite Hc in Hc'. inversion Hc'; subst c'.
  destruct (is_result_label c) eqn:Hl.
  - pose proof (label_not_number c Hl) as Hn.
    destruct H1 as [[_ [n1 [Hn1 Hv]]]|[Hp _]]; [|congruence].
    destruct H2 as [[_ [n2 [Hn2 Hw]]]|[Hp _]]; [|congruence].
    congruence.
  - destruct H1 as [[Hf _]|[Hp1 _]]; [discriminate|].
    destruct H2 as [[Hf _]|[Hp2 _]]; [discriminate|]. congruence.
Qed.

Lemma first_accepted_unique e cells i v i' v' :
  first_accepted e cells i v -> first_accepted e cells i' v' -> i = i' /\ v = v'.
Proof.
  intros [H1 M1] [H2 M2].
  destruct (lt_eq_lt_dec i i') as [[Hlt| ->]|Hgt].
  - exfalso. exact (M2 i v Hlt H1).
  - split; [reflexivity|exact (accepted_unique _ _ _ _ _ H1 H2)].
  - exfalso. exact (M1 i' v' Hgt H2).
Qed.

(** One step of the row loop: the head cell is accepted and returned, or it
    is not accepted and the loop goes on with the rest. *)
Lemma scan_row_step e c rest :
  (exists v, accepted_cell e (c :: rest) 0 v /\ scan_row e (c :: rest) = Some v) \/
  ((forall w, ~ accepted_cell e (c :: rest) 0 w) /\ scan_row e (c :: rest) = scan_row e rest).
Proof.
  cbn [scan_row]. destruct (is_result_label c) eqn:Hl.
  - pose proof (label_not_number c Hl) as Hn. destruct rest as [|next rest'].
    + right. split.
      * intros w Hw. apply accepted_0 in Hw as [[_ [nx [Hnx _]]]|[Hp _]]; [discriminate|congruence].
      * rewrite Hn. reflexivity.
    + destruct (parse_f64 (remove_commas next)) as [v|] eqn:Hv.
      * left. exists v. split; [|reflexivity].
        apply accepted_0. left. split; [exact Hl|]. exists next. split; [reflexivity|exact Hv].
      * right. split.
        -- intros w Hw. apply accepted_0 in Hw as [[_ [nx [Hnx Hw]]]|[Hp _]].
           ++ simpl in Hnx. inversion Hnx; subst. congruence.
           ++ congruence.
        -- rewrite Hn. reflexivity.
  - destruct (parse_f64 (remove_commas c)) as [x|] eqn:Hx.
    + destruct (near_expected x e) eqn:Hne.
      * left. exists x. split; [|reflexivity]. apply accepted_0. right. split; assumption.
      * right. split; [|reflexivity].
        intros w Hw. apply accepted_0 in Hw as [[Hf _]|[Hp Hw]]; [congruence|].
        inversion Hp; subst. congruence.
    + right. split; [|reflexivity].
      intros w Hw. apply accepted_0 in Hw as [[Hf _]|[Hp _]]; congruence.
Qed.

Lemma scan_row_spec e cells :
  match scan_row e cells with
  | Some v => exists i, first_accepted e cells i v
  | None => forall i v, ~ accepted_cell e cells i v
  end.
Proof.
  induction cells as [|c rest IH].
  - simpl. intros i v [cell [H _]]. destruct i; discriminate.
  - destruct (scan_row_step e c rest) as [[v [Hacc Hs]]|[Hnone Hs]]; rewrite Hs.
    + exists 0. split; [exact Hacc|intros j w Hj; lia].
    + destruct (scan_row e rest) as [v|] eqn:Hr.
      * destruct IH as [i [Hi Hmin]]. exists (S i). split; [apply accepted_S; exact Hi|].
        intros [|j] w Hj; [apply Hnone|].
        intros H. apply accepted_S in H. revert H. apply Hmin. lia.
      * intros [|i] v; [apply Hnone|].
        intros H. apply accepted_S in H. revert H. apply IH.
Qed.

(** A row with no accepted cell makes the row loop come out empty. *)
Lemma scan_row_none e l :
  (forall j w, ~ accepted_cell e (split_cells l) j w) -> scan_row e (split_cells l) = None.
Proof.
  intros H. pose proof (scan_row_spec e (split_cells l)) as Hs.
  destruct (scan_row e (split_cells l)) as [v|]; [|reflexivity].
  destruct Hs as [i [Hi _]]. exfalso. exact (H i v Hi).
Qed.

Lemma scan_row_none_forall e (pre : list string) :
  Forall (fun l => forall j w, ~ accepted_cell e (split_cells l) j w) pre ->
  Forall (fun l => scan_row e (split_cells l) = None) pre.
Proof. intros H. eapply Forall_impl; [|exact H]. exact (scan_row_none e). Qed.

(** The three ways the line loop ends: at the first row with an accepted
    cell, all earlier lines read; at the first line that cannot be read, no
    earlier row having one; or past the last line, every line read and no
    row having one. *)
Lemma scan_lines_spec e lines :
  match scan_lines e lines with
  | Ok v =>
      exists pre line post i,
        lines = (map Ok pre ++ Ok line :: post)%list /\
        Forall (fun l => forall j w, ~ accepted_cell e (split_cells l) j w) pre /\
        first_accepted e (split_cells line) i v
  | Err m =>
      (exists pre err post,
         lines = (map Ok pre ++ Err err :: post)%list /\
         Forall (fun l => forall j w, ~ accepted_cell e (split_cells l) j w) pre /\
         m = ("Failed to read line: " ++ err)%string) \/
      (exists ls,
         lines = map Ok ls /\ m = "Could not find result in CSV output" /\
         Forall (fun l => forall j w, ~ accepted_cell e (split_cells l) j w) ls)
  end.
Proof.
  induction lines as [|[line|err] rest IH].
  - simpl. right. exists []. auto.
  - simpl. pose proof (scan_row_spec e (split_cells line)) as Hrow.
    destruct (scan_row e (split_cells line)) as [v|] eqn:Hr.
    + destruct Hrow as [i Hi]. exists [], line, rest, i. auto.
    + destruct (scan_lines e rest) as [v|m].
      * destruct IH as (pre & l & post & i & -> & Hpre & Hi).
        exists (line :: pre), l, post, i. split; [reflexivity|]. split; [constructor; auto|exact Hi].
      * destruct IH as [(pre & err & post & -> & Hpre & Hm)|(ls & -> & Hm & Hls)].
        -- left. exists (line :: pre), err, post. split; [reflexivity|].
           split; [constructor; auto|exact Hm].
        -- right. exists (line :: ls). split; [reflexivity|]. split; [exact Hm|constructor; auto].
  - simpl. left. exists [], err, rest. auto.
Qed.

End MatchFacts.

(** ** Facts on the text helpers *)

Module TextFacts.

Local Open Scope nat_scope.

Lemma split_on_no_sep sep s p :
  In p (split_on sep s) -> ~ In sep (list_ascii_of_string p).
Proof.
  revert p. induction s as [|c s IH]; intros p; simpl.
  - intros [<-|[]]. simpl. auto.
  - destruct (Ascii.eqb_spec c sep) as [Hc|Hc].
    + intros [<-|Hp]; [simpl; auto|exact (IH p Hp)].
    + destruct (split_on sep s) as [|q qs] eqn:Hs.
      * intros [<-|[]]. simpl. intros [H|[]]. congruence.
      * intros [<-|Hp].
        -- simpl. intros [H|H]; [congruence|]. apply (IH q (or_introl eq_refl)). exact H.
        -- apply (IH p). right. exact Hp.
Qed.

Lemma drop_while_in p l c : In c (drop_while p l) -> In c l.
Proof.
  induction l as [|x l IH]; simpl; [auto|].
  destruct (p x); [intros H; right; exact (IH H)|auto].
Qed.

Lemma trim_matches_in p s c :
  In c (list_ascii_of_string (trim_matches p s)) -> In c (list_ascii_of_string s).
Proof.
  unfold trim_matches. rewrite list_ascii_of_string_of_list_ascii.
  intros H. apply in_rev in H. apply drop_while_in in H.
  apply in_rev in H. apply drop_while_in in H. exact H.
Qed.

Lemma remove_commas_id s : ~ In ","%char (list_ascii_of_string s) -> remove_commas s = s.
Proof.
  induction s as [|c s IH]; simpl; [reflexivity|].
  intros H. destruct (Ascii.eqb_spec c ","%char) as [->|Hc].
  - exfalso. apply H. left. reflexivity.
  - f_equal. apply IH. intros H'. apply H. right. exact H'.
Qed.

Lemma split_cells_no_comma line cell :
  In cell (split_cells line) -> ~ In ","%char (list_ascii_of_string cell).
Proof.
  unfold split_cells, clean_cell, trim. intros H.
  apply in_map_iff in H as [p [<- Hp]].
  intros Hc. apply trim_matches_in, trim_matches_in in Hc.
  exact (split_on_no_sep _ _ _ Hp Hc).
Qed.

Lemma drop_while_keep p l : (forall c, In c l -> p c = false) -> drop_while p l = l.
Proof.
  destruct l as [|x l]; simpl; [reflexivity|]. intros H. rewrite (H x (or_introl eq_refl)).
  reflexivity.
Qed.

Lemma trim_matches_keep p s :
  (forall c, In c (list_ascii_of_string s) -> p c = false) -> trim_matches p s = s.
Proof.
  intros H. unfold trim_matches. rewrite (drop_while_keep p _ H).
  rewrite drop_while_keep.
  - rewrite rev_involutive. apply string_of_list_ascii_of_string.
  - intros c Hc. apply H. apply in_rev. exact Hc.
Qed.

Lemma list_ascii_app (a b : string) :
  list_ascii_of_string (a ++ b) = (list_ascii_of_string a ++ list_ascii_of_string b)%list.
Proof. induction a as [|c a IH]; simpl; [reflexivity|]. rewrite IH. reflexivity. Qed.

Lemma split_on_app sep a b :
  (forall c, In c (list_ascii_of_string a) -> c <> sep) ->
  split_on sep (a ++ String sep b) = a :: split_on sep b.
Proof.
  induction a as [|c a IH]; intros H; simpl.
  - rewrite Ascii.eqb_refl. reflexivity.
  - destruct (Ascii.eqb_spec c sep) as [Hc|Hc].
    + exfalso. exact (H c (or_introl eq_refl) Hc).
    + rewrite IH by (intros x Hx; apply H; right; exact Hx). reflexivity.
Qed.

Lemma string_length_app (a b : string) :
  String.length (a ++ b) = String.length a + String.length b.
Proof. induction a as [|c a IH]; simpl; [reflexivity|]. rewrite IH. reflexivity. Qed.

(** The characters [z_to_string] writes. *)
Lemma digit_char k : k < 10 -> digit_of (ascii_of_nat (48 + k)) = Some (Z.of_nat k).
Proof.
  intros H. unfold digit_of. rewrite nat_ascii_embedding by lia.
  replace ((48 <=? 48 + k) && (48 + k <=? 57)) with true.
  - do 2 f_equal. lia.
  - symmetry. apply andb_true_iff. split; apply Nat.leb_le; lia.
Qed.

Lemma digit_of_mod (n : Z) :
  digit_of (ascii_of_nat (48 + Z.to_nat (n mod 10))) = Some (n mod 10)%Z.
Proof.
  assert (H : (0 <= n mod 10 < 10)%Z) by (apply Z.mod_pos_bound; lia).
  rewrite digit_char by lia. rewrite Z2Nat.id by lia. reflexivity.
Qed.

Lemma take_digits_digits_aux fuel n acc a c :
  (0 <= n < 10 ^ Z.of_nat (S fuel))%Z ->
  exists d, 1 <= d /\
    take_digits (digits_aux fuel n acc) a c = take_digits acc (a * 10 ^ Z.of_nat d + n)%Z (c + d).
Proof.
  revert n acc a c. induction fuel as [|f IH]; intros n acc a c Hn.
  - exists 1. split; [lia|]. cbn [digits_aux take_digits]. rewrite digit_of_mod.
    rewrite Z.mod_small by (simpl in Hn; lia). f_equal; simpl; lia.
  - cbn [digits_aux]. destruct (n <? 10)%Z eqn:Hlt.
    + apply Z.ltb_lt in Hlt. exists 1. split; [lia|]. cbn [take_digits]. rewrite digit_of_mod.
      rewrite Z.mod_small by lia. f_equal; simpl; lia.
    + apply Z.ltb_ge in Hlt.
      assert (Hb : (0 <= n / 10 < 10 ^ Z.of_nat (S f))%Z).
      { split; [apply Z.div_pos; lia|].
        apply Z.div_lt_upper_bound; [lia|].
        rewrite Nat2Z.inj_succ, Z.pow_succ_r in Hn by lia. lia. }
      destruct (IH (n / 10)%Z (String (ascii_of_nat (48 + Z.to_nat (n mod 10))) acc) a c Hb) as [d [Hd Heq]].
      exists (S d). split; [lia|]. rewrite Heq. cbn [take_digits]. rewrite digit_of_mod.
      f_equal; [|lia].
      rewrite Nat2Z.inj_succ, Z.pow_succ_r by lia.
      pose proof (Z.div_mod n 10 ltac:(lia)). lia.
Qed.

Lemma z_to_string_bound n :
  (0 <= n)%Z -> (0 <= n < 10 ^ Z.of_nat (S (Z.to_nat (Z.log2 n))))%Z.
Proof.
  intros Hn. split; [exact Hn|].
  rewrite Nat2Z.inj_succ, Z2Nat.id by apply Z.log2_nonneg.
  destruct (Z.eq_dec n 0) as [->|Hn0]; [simpl; lia|].
  destruct (Z.log2_spec n) as [_ H]; [lia|].
  eapply Z.lt_le_trans; [exact H|].
  apply Z.pow_le_mono_l. lia.
Qed.

Lemma take_digits_z_to_string n :
  (0 <= n)%Z -> exists d, take_digits (z_to_string n) 0 0 = (n, S d, EmptyString).
Proof.
  intros Hn. unfold z_to_string.
  destruct (take_digits_digits_aux _ n EmptyString 0 0 (z_to_string_bound n Hn)) as [d [Hd ->]].
  exists (pred d). replace (S (pred d)) with d by lia. reflexivity.
Qed.

Lemma digits_aux_head fuel n acc :
  (0 <= n)%Z ->
  exists k rest, k < 10 /\ digits_aux fuel n acc = String (ascii_of_nat (48 + k)) rest.
Proof.
  revert n acc. induction fuel as [|f IH]; intros n acc Hn; cbn [digits_aux].
  - exists (Z.to_nat (n mod 10)), acc. split; [|reflexivity].
    assert (H : (0 <= n mod 10 < 10)%Z) by (apply Z.mod_pos_bound; lia). lia.
  - destruct (n <? 10)%Z.
    + exists (Z.to_nat (n mod 10)), acc. split; [|reflexivity].
      assert (H : (0 <= n mod 10 < 10)%Z) by (apply Z.mod_pos_bound; lia). lia.
    + apply IH. apply Z.div_pos; lia.
Qed.

Lemma digits_aux_chars fuel n acc ch :
  In ch (list_ascii_of_string (digits_aux fuel n acc)) ->
  (exists k, k < 10 /\ ch = ascii_of_nat (48 + k)) \/ In ch (list_ascii_of_string acc).
Proof.
  assert (Hk : forall m : Z, Z.to_nat (m mod 10) < 10).
  { intros m. assert (H : (0 <= m mod 10 < 10)%Z) by (apply Z.mod_pos_bound; lia). lia. }
  revert n acc. induction fuel as [|f IH]; intros n acc; cbn [digits_aux].
  - simpl. intros [<-|H]; [left; eexists; split; [apply Hk|reflexivity]|right; exact H].
  - destruct (n <? 10)%Z.
    + simpl. intros [<-|H]; [left; eexists; split; [apply Hk|reflexivity]|right; exact H].
    + intros H. apply IH in H as [H|H]; [left; exact H|].
      simpl in H. destruct H as [<-|H]; [left; eexists; split; [apply Hk|reflexivity]|right; exact H].
Qed.

Lemma z_to_string_chars n ch :
  In ch (list_ascii_of_string (z_to_string n)) -> exists k, k < 10 /\ ch = ascii_of_nat (48 + k).
Proof.
  unfold z_to_string. intros H. apply digits_aux_chars in H as [H|[]]. exact H.
Qed.

Lemma plus_match ch rest :
  ch <> "+"%char ->
  match String ch rest with String "+"%char s' => s' | _ => String ch rest end = String ch rest.
Proof.
  intros H. destruct ch as [[] [] [] [] [] [] [] []]; try reflexivity.
  exfalso. apply H. reflexivity.
Qed.

Lemma digit_char_props k :
  k < 10 ->
  ascii_of_nat (48 + k) <> "+"%char /\ ascii_of_nat (48 + k) <> ","%char /\
  is_whitespace (ascii_of_nat (48 + k)) = false /\ is_dq (ascii_of_nat (48 + k)) = false.
Proof.
  intros Hk.
  assert (Hn : nat_of_ascii (ascii_of_nat (48 + k)) = 48 + k) by (apply nat_ascii_embedding; lia).
  split; [|split; [|split]].
  - intros E. apply (f_equal nat_of_ascii) in E. rewrite Hn in E.
    change (nat_of_ascii "+"%char) with 43 in E. lia.
  - intros E. apply (f_equal nat_of_ascii) in E. rewrite Hn in E.
    change (nat_of_ascii ","%char) with 44 in E. lia.
  - unfold is_whitespace. rewrite Hn. apply orb_false_iff. split.
    + apply andb_false_iff. right. apply Nat.leb_gt. lia.
    + apply Nat.eqb_neq. lia.
  - unfold is_dq. destruct (Ascii.eqb_spec (ascii_of_nat (48 + k)) (ascii_of_nat 34)) as [E|E];
      [|reflexivity].
    apply (f_equal nat_of_ascii) in E. rewrite Hn, nat_ascii_embedding in E by lia. lia.
Qed.

Lemma parse_usize_z_to_string n :
  (0 <= n < 2 ^ 64)%Z -> parse_usize (z_to_string n) = Some (Z.to_N n).
Proof.
  intros Hn.
  destruct (digits_aux_head (Z.to_nat (Z.log2 n)) n EmptyString ltac:(lia)) as (k & rest & Hk & Hs).
  destruct (take_digits_z_to_string n ltac:(lia)) as [d Hd].
  unfold parse_usize. unfold z_to_string in Hd |- *. rewrite Hs in Hd |- *.
  rewrite plus_match by (apply digit_char_props; exact Hk).
  rewrite Hd. replace ((n <? 2 ^ 64)%Z) with true by (symmetry; apply Z.ltb_lt; lia).
  reflexivity.
Qed.

End TextFacts.

(** ** Facts on the [ssconvert] wrappers *)

Module EngineFacts.

Import Facts TextFacts.

Local Open Scope nat_scope.

Lemma path_join_app d n m :
  n <> EmptyString -> path_join d (n ++ m) = (path_join d n ++ m)%string.
Proof.
  intros Hn. unfold path_join.
  replace (starts_with_slash (n ++ m)) with (starts_with_slash n)
    by (destruct n; [contradiction|reflexivity]).
  destruct (starts_with_slash n); [reflexivity|].
  destruct (String.eqb d EmptyString || ends_with_slash d); rewrite !string_app_assoc; reflexivity.
Qed.

Lemma sheet_path_split d base i :
  sheet_path d base i
  = (path_join d (base ++ "_") ++ (z_to_string (Z.of_nat i) ++ ".csv"))%string.
Proof.
  unfold sheet_path. rewrite <- path_join_app by (destruct base; discriminate).
  rewrite string_app_assoc. reflexivity.
Qed.

Lemma prefix_not_sheet d base i : path_join d (base ++ "_") <> sheet_path d base i.
Proof.
  rewrite sheet_path_split. intros H. apply (f_equal String.length) in H.
  rewrite !string_length_app in H. simpl in H. lia.
Qed.

Lemma xlsx_to_csv_ok env x d p :
  xlsx_to_csv env x d = Ok p ->
  exists base o, file_stem x = Some base /\ ss_output env = Ok o /\ status_success o = true /\
                 p = path_join d (base ++ "_").
Proof.
  unfold xlsx_to_csv. destruct (file_stem x) as [base|]; [|discriminate].
  destruct (ss_output env) as [o|]; [|discriminate].
  destruct (status_success o) eqn:Hs; simpl; [|discriminate].
  intros H. inversion H. exists base, o. auto.
Qed.

Lemma probe_sheets_spec env d b i fuel :
  exists k, k <= fuel /\
    probe_sheets env d b i fuel = map (sheet_path d b) (seq i k) /\
    (forall j, i <= j < i + k -> ss_exists env (sheet_path d b j) = true) /\
    (k < fuel -> ss_exists env (sheet_path d b (i + k)) = false).
Proof.
  revert i. induction fuel as [|f IH]; intros i.
  - exists 0. simpl. repeat split; intros; lia.
  - cbn [probe_sheets]. destruct (ss_exists env (sheet_path d b i)) eqn:Hi.
    + destruct (IH (S i)) as (k & Hk & Heq & Hall & Hlast).
      exists (S k). split; [lia|]. split; [simpl; rewrite Heq; reflexivity|]. split.
      * intros j Hj. destruct (Nat.eq_dec j i) as [->|Hne]; [exact Hi|]. apply Hall. lia.
      * intros Hlt. rewrite Nat.add_succ_r. apply Hlast. lia.
    + exists 0. split; [lia|]. split; [reflexivity|]. split; [intros; lia|].
      intros _. rewrite Nat.add_0_r. exact Hi.
Qed.

End EngineFacts.

(** ** Facts on the loader *)

Module LoaderFacts.

Lemma load_spec (ps : string -> option TestSpec) :
  (forall n dir acc,
     match node_yaml_files dir n with
     | Some fs => load_node ps dir n acc
                  = Ok ((fst acc ++ flat_map (file_cases ps) fs)%list,
                        (snd acc ++ flat_map (file_skips ps) fs)%list)
     | None => exists e, load_node ps dir n acc = Err e
     end) /\
  (forall l dir acc,
     match listing_yaml_files dir l with
     | Some fs => load_listing ps dir l acc
                  = Ok ((fst acc ++ flat_map (file_cases ps) fs)%list,
                        (snd acc ++ flat_map (file_skips ps) fs)%list)
     | None => exists e, load_listing ps dir l acc = Err e
     end) /\
  (forall es dir acc,
     match entries_yaml_files dir es with
     | Some fs => load_entries ps dir es acc
                  = Ok ((fst acc ++ flat_map (file_cases ps) fs)%list,
                        (snd acc ++ flat_map (file_skips ps) fs)%list)
     | None => exists e, load_entries ps dir es acc = Err e
     end).
Proof.
  apply FsNode_mutind.
  - intros name content dir [cs ss]. cbn [node_yaml_files load_node].
    destruct (extension (path_join dir name)) as [ext|];
      [|simpl; rewrite !app_nil_r; reflexivity].
    destruct (String.eqb ext "yaml"); [|simpl; rewrite !app_nil_r; reflexivity].
    destruct content as [text|e]; [|exists e; reflexivity].
    simpl. unfold file_cases, file_skips. simpl.
    destruct (ps text); simpl; rewrite !app_nil_r; reflexivity.
  - intros name l IH dir acc. exact (IH (path_join dir name) acc).
  - intros e dir acc. exists e. reflexivity.
  - intros es IH dir acc. exact (IH dir acc).
  - intros dir [cs ss]. simpl. rewrite !app_nil_r. reflexivity.
  - intros e rest _ dir acc. exists e. reflexivity.
  - intros node IHn rest IHr dir acc. cbn [entries_yaml_files load_entries].
    specialize (IHn dir acc).
    destruct (node_yaml_files dir node) as [a|]; [|destruct IHn as [e He]; rewrite He; exists e; reflexivity].
    rewrite IHn.
    specialize (IHr dir ((fst acc ++ flat_map (file_cases ps) a)%list,
                         (snd acc ++ flat_map (file_skips ps) a)%list)).
    destruct (entries_yaml_files dir rest) as [b|]; [|exact IHr].
    rewrite IHr. simpl. rewrite !flat_map_app, !app_assoc. reflexivity.
Qed.

Lemma find_yaml_spec :
  (forall n dir,
     match node_yaml_files dir n with
     | Some fs => find_yaml_node dir n = Ok (map fst fs)
     | None => True
     end) /\
  (forall l dir,
     match listing_yaml_files dir l with
     | Some fs => find_yaml_listing dir l = Ok (map fst fs)
     | None => True
     end) /\
  (forall es dir,
     match entries_yaml_files dir es with
     | Some fs => find_yaml_entries dir es = Ok (map fst fs)
     | None => True
     end).
Proof.
  apply FsNode_mutind.
  - intros name content dir. cbn [node_yaml_files find_yaml_node].
    destruct (extension (path_join dir name)) as [ext|]; [|reflexivity].
    destruct (String.eqb ext "yaml"); [|reflexivity].
    destruct content; reflexivity.
  - intros name l IH dir. exact (IH (path_join dir name)).
  - intros e dir. exact I.
  - intros es IH dir. exact (IH dir).
  - intros dir. reflexivity.
  - intros e rest _ dir. exact I.
  - intros node IHn rest IHr dir. cbn [entries_yaml_files find_yaml_entries].
    specialize (IHn dir). specialize (IHr dir).
    destruct (node_yaml_files dir node) as [a|]; [|exact I].
    destruct (entries_yaml_files dir rest) as [b|]; [|exact I].
    rewrite IHn, IHr, map_app. reflexivity.
Qed.

End LoaderFacts.

(** ** Facts on the pipelines of [run_test] and [run_batch] *)

Module PipelineFacts.

Import BatchProofs RunnerFacts.

Local Open Scope nat_scope.

Lemma run_batch_pipeline env runner o csv :
  be_tempdir env = Ok tt ->
  be_write env (batch_yaml (test_cases runner)) = Ok tt ->
  be_forge env (batch_yaml (test_cases runner)) = Ok o ->
  status_success o = true ->
  be_convert env = Ok csv ->
  run_batch env runner
  = (map skip_result (skip_cases runner)
     ++ batch_match (parse_batch_csv csv (length (test_cases runner))) 0 (test_cases runner))%list.
Proof.
  intros Ht Hw Hf Hs Hc. unfold run_batch.
  destruct (test_cases runner) as [|tc0 tcs0] eqn:Htcs.
  - simpl. rewrite app_nil_r. reflexivity.
  - rewrite Ht, Hw, Hf, Hs, Hc. reflexivity.
Qed.

Lemma batch_open_failure csv_err tcs :
  batch_match (parse_batch_csv (Err csv_err) (length tcs)) 0 tcs
  = map (fun tc => fail_with tc ("Failed to open CSV: " ++ csv_err)) tcs.
Proof. apply batch_match_repeat. lia. Qed.

Lemma judge_no_error tc a : result_error (judge tc a) = None.
Proof. unfold judge. destruct (ltb _ _); reflexivity. Qed.

Lemma in_fail_all m x tcs :
  In x (map (fun tc => fail_with tc m) tcs) -> result_error x = Some m.
Proof. intros H. apply in_map_iff in H as [tc [<- _]]. reflexivity. Qed.

Lemma in_skips_no_error x skips :
  In x (map skip_result skips) -> result_error x = None.
Proof. intros H. apply in_map_iff in H as [sc [<- _]]. reflexivity. Qed.

(** The two ways [run_batch] ends: every case failed with one pipeline
    message, or the cases matched against the slots of a CSV file. *)
Lemma run_batch_cases env runner :
  (exists m,
     ((exists e, m = ("Failed to create temp dir: " ++ e)%string) \/
      (exists e, m = ("Failed to write YAML: " ++ e)%string) \/
      (exists e, m = ("Failed to run forge: " ++ e)%string) \/
      (exists e, m = ("forge export failed: " ++ e)%string) \/
      (exists e, m = ("CSV conversion failed: " ++ e)%string)) /\
     run_batch env runner
     = (map skip_result (skip_cases runner)
        ++ map (fun tc => fail_with tc m) (test_cases runner))%list) \/
  (exists csv,
     run_batch env runner
     = (map skip_result (skip_cases runner)
        ++ batch_match (parse_batch_csv csv (length (test_cases runner))) 0
                       (test_cases runner))%list).
Proof.
  unfold run_batch.
  destruct (test_cases runner) as [|tc0 tcs0] eqn:Htcs.
  - right. exists (Ok []). simpl. rewrite app_nil_r. reflexivity.
  - destruct (be_tempdir env) as [u|e]; [|left; eexists; split; [|reflexivity]; eauto 10].
    destruct (be_write env _) as [u'|e]; [|left; eexists; split; [|reflexivity]; eauto 10].
    destruct (be_forge env _) as [o|e]; [|left; eexists; split; [|reflexivity]; eauto 10].
    destruct (negb (status_success o)); [left; eexists; split; [|reflexivity]; eauto 10|].
    destruct (be_convert env) as [csv|e]; [|left; eexists; split; [|reflexivity]; eauto 10].
    right. exists csv. reflexivity.
Qed.

(** The messages the error field of a [run_batch] result can hold. *)
Lemma run_batch_errors env runner x m :
  In x (run_batch env runner) -> result_error x = Some m ->
  (exists e, m = ("Failed to create temp dir: " ++ e)%string) \/
  (exists e, m = ("Failed to write YAML: " ++ e)%string) \/
  (exists e, m = ("Failed to run forge: " ++ e)%string) \/
  (exists e, m = ("forge export failed: " ++ e)%string) \/
  (exists e, m = ("CSV conversion failed: " ++ e)%string) \/
  (exists e, m = ("Failed to open CSV: " ++ e)%string) \/
  m = MISSING.
Proof.
  intros Hx Hm.
  destruct (run_batch_cases env runner) as [[m' [Hm' Heq]]|[csv Heq]]; rewrite Heq in Hx;
    apply in_app_or in Hx as [Hx|Hx]; try (rewrite (in_skips_no_error _ _ Hx) in Hm; discriminate).
  - rewrite (in_fail_all _ _ _ Hx) in Hm. inversion Hm; subst m'.
    destruct Hm' as [H|[H|[H|[H|H]]]]; eauto 10.
  - apply batch_match_in in Hx as [tc [[a ->]|[e [He ->]]]].
    + rewrite judge_no_error in Hm. discriminate.
    + simpl in Hm. inversion Hm; subst m.
      apply batch_slot_errors in He as [->|[e' [_ ->]]]; eauto 10.
    + rewrite parse_batch_csv_length. lia.
Qed.

(** The messages the error field of a [run_test] result can hold. *)
Lemma run_test_errors env tc m :
  result_error (run_test env tc) = Some m ->
  (exists e, m = ("Failed to create temp dir: " ++ e)%string) \/
  (exists e, m = ("Failed to write YAML: " ++ e)%string) \/
  (exists e, m = ("Failed to run forge: " ++ e)%string) \/
  (exists e, m = ("forge export failed: " ++ e)%string) \/
  (exists e, m = ("CSV conversion failed: " ++ e)%string) \/
  m = "Could not find result in any CSV sheet".
Proof.
  unfold run_test.
  destruct (ce_tempdir env); [|simpl; intros H; inversion H; eauto 10].
  destruct (ce_write env _); [|simpl; intros H; inversion H; eauto 10].
  destruct (ce_forge env _) as [o|]; [|simpl; intros H; inversion H; eauto 10].
  destruct (negb (status_success o)); [simpl; intros H; inversion H; eauto 10|].
  destruct (ce_convert_all env) as [files|]; [|simpl; intros H; inversion H; eauto 10].
  induction files as [|f files IH]; cbn [search_sheets].
  - simpl. intros H. inversion H. eauto 10.
  - destruct (find_result_in_csv f (tc_expected tc)); [|exact IH].
    rewrite judge_no_error. discriminate.
Qed.

Lemma search_sheets_none tc files :
  search_sheets tc files = fail_with tc "Could not find result in any CSV sheet" <->
  Forall (fun c => exists e, find_result_in_csv c (tc_expected tc) = Err e) files.
Proof.
  induction files as [|f files IH]; cbn [search_sheets].
  - split; [constructor|reflexivity].
  - destruct (find_result_in_csv f (tc_expected tc)) as [a|e] eqn:Hf.
    + split.
      * unfold judge. destruct (ltb _ _); discriminate.
      * intros H. inversion H as [|? ? [e He] _]. congruence.
    + rewrite IH. split.
      * intros H. constructor; [exists e; exact Hf|exact H].
      * intros H. inversion H. assumption.
Qed.

End PipelineFacts.

(** ** Reading back the batch labels *)

Module LabelFacts.

Import Facts TextFacts.

Local Open Scope nat_scope.

Lemma batch_label_entry (pre : string) (count i : nat) (cell : string) (v : f64) :
  i < count ->
  (Z.of_nat i < 2 ^ 64)%Z ->
  split_cells cell = [cell] ->
  parse_f64 cell = Some v ->
  batch_label_index (pre ++ z_to_string (Z.of_nat i)) = Some (z_to_string (Z.of_nat i)) ->
  forallb (fun c => negb (Ascii.eqb c ","%char) && negb (is_whitespace c) && negb (is_dq c))
          (list_ascii_of_string pre) = true ->
  batch_line_entry count (pre ++ z_to_string (Z.of_nat i) ++ "," ++ cell) = Some (i, v).
Proof.
  intros Hi H64 Hcell Hv Hidx Hpre.
  set (z := z_to_string (Z.of_nat i)) in *.
  assert (Hchars : forall c, In c (list_ascii_of_string (pre ++ z)) ->
                   c <> ","%char /\ is_whitespace c = false /\ is_dq c = false).
  { intros c Hc. rewrite list_ascii_app in Hc. apply in_app_or in Hc as [Hc|Hc].
    - rewrite forallb_forall in Hpre. specialize (Hpre c Hc).
      apply andb_true_iff in Hpre as [Hpre Hdq]. apply andb_true_iff in Hpre as [Hcomma Hws].
      apply negb_true_iff in Hcomma, Hws, Hdq.
      split; [|split; assumption].
      intros E. subst c. rewrite Ascii.eqb_refl in Hcomma. discriminate.
    - apply z_to_string_chars in Hc as [k [Hk ->]].
      destruct (digit_char_props k Hk) as (_ & H1 & H2 & H3). auto. }
  assert (Hsplit : split_cells ((pre ++ z) ++ String ","%char cell) = [(pre ++ z)%string; cell]).
  { unfold split_cells at 1.
    rewrite split_on_app by (intros c Hc; apply Hchars; exact Hc).
    cbn [map]. change (map clean_cell (split_on ","%char cell)) with (split_cells cell).
    rewrite Hcell. unfold clean_cell, trim.
    rewrite (trim_matches_keep is_dq) by (intros c Hc; apply Hchars; exact Hc).
    rewrite (trim_matches_keep is_whitespace) by (intros c Hc; apply Hchars; exact Hc).
    reflexivity. }
  replace (pre ++ z ++ "," ++ cell)%string with ((pre ++ z) ++ String ","%char cell)%string
    by (rewrite string_app_assoc; reflexivity).
  unfold batch_line_entry. rewrite Hsplit. cbv beta iota.
  rewrite Hidx. cbv beta iota. unfold z.
  rewrite parse_usize_z_to_string by lia.
  replace (Z.to_N (Z.of_nat i)) with (N.of_nat i) by (rewrite <- nat_N_Z, N2Z.id; reflexivity).
  replace ((N.of_nat i <? N.of_nat count)%N) with true by (symmetry; apply N.ltb_lt; lia).
  rewrite remove_commas_id
    by (apply (split_cells_no_comma cell cell); rewrite Hcell; left; reflexivity).
  rewrite Hv. replace (N.to_nat (N.of_nat i)) with i by lia. reflexivity.
Qed.

End LabelFacts.

(** ** Further properties of the runner, the loader, the engine wrappers and [main] *)

Module Extras.

Import Facts ExtractProofs RunnerProofs BatchProofs RunnerFacts MatchFacts TextFacts
       EngineFacts LoaderFacts PipelineFacts LabelFacts.

Local Open Scope nat_scope.

(** X1: [run_all_streaming] returns exactly the list [run_all] returns,
    and its callback is applied once to each of those results, in order. *)
Theorem streaming_matches_run_all {St : Type} (on_result : St -> TestResult -> St) (st0 : St)
    (envs : nat -> CaseEnv) (runner : TestRunner) :
  run_all_streaming on_result st0 envs runner
  = (run_all envs runner, fold_left on_result (run_all envs runner) st0).
Proof. apply streaming_is_run_all. Qed.

(** X2: in both modes of [run_all_mode], after the Skips, the result of
    each test case is a Pass whose [actual] is within [EPSILON] of its
    [expected], a Fail with an [actual] outside it and no error, or a Fail
    with an error and no [actual]; it carries the case's name, formula and
    expected value. *)
Theorem mode_results_consistent {St : Type} (print_result : St -> TestResult -> St) (st0 : St)
    (envs : nat -> CaseEnv) (benv : BatchEnv) (runner : TestRunner) (batch : bool) :
  exists rest,
    run_all_mode_results print_result st0 envs benv runner batch
    = (map skip_result (skip_cases runner) ++ rest)%list /\
    Forall2 consistent_result (test_cases runner) rest.
Proof.
  unfold run_all_mode_results. destruct batch.
  - apply run_batch_shape; [apply judge_consistent|apply fail_with_consistent].
  - rewrite streaming_is_run_all. cbn [fst]. apply run_all_shape. apply run_test_consistent.
Qed.

(** X3: when the batch pipeline succeeds but the CSV file cannot be
    opened, every test case fails with ["Failed to open CSV: " ++ e]. *)
Theorem batch_unopenable_csv_fails_every_case (env : BatchEnv) (runner : TestRunner)
    (o : ForgeOutput) (csv_err : string) :
  be_tempdir env = Ok tt ->
  be_write env (batch_yaml (test_cases runner)) = Ok tt ->
  be_forge env (batch_yaml (test_cases runner)) = Ok o ->
  status_success o = true ->
  be_convert env = Ok (Err csv_err) ->
  run_batch env runner
  = (map skip_result (skip_cases runner)
     ++ map (fun tc => fail_with tc ("Failed to open CSV: " ++ csv_err)) (test_cases runner))%list.
Proof.
  intros Ht Hw Hf Hs Hc.
  rewrite (run_batch_pipeline env runner o (Err csv_err) Ht Hw Hf Hs Hc).
  rewrite batch_open_failure. reflexivity.
Qed.

(** X4: no result of [run_batch] carries the error
    ["Missing result in CSV"]: the slot vector always has one slot per
    case, so that branch of the matching loop is never taken. *)
Theorem batch_never_reports_missing_slot (env : BatchEnv) (runner : TestRunner) (x : TestResult) :
  In x (run_batch env runner) -> result_error x <> Some "Missing result in CSV".
Proof.
  intros Hx Hm.
  destruct (run_batch_errors env runner x _ Hx Hm)
    as [[e H]|[[e H]|[[e H]|[[e H]|[[e H]|[[e H]|H]]]]]]; discriminate H.
Qed.

(** X5: [run_batch] opens the path [xlsx_to_csv] returns,
    [<output_dir>/<stem>_], which is none of the sheet files
    [<output_dir>/<stem>_<i>.csv].  So when the output directory holds
    nothing else than sheet files, every test case fails, with
    ["CSV conversion failed: ..."] or ["Failed to open CSV: ..."]. *)
Theorem batch_reads_no_sheet_file (benv : BatchEnv) (ss : SsEnv) (open : string -> CsvFile)
    (xlsx_path output_dir base : string) (runner : TestRunner) (o : ForgeOutput) :
  be_convert benv = batch_convert ss open xlsx_path output_dir ->
  file_stem xlsx_path = Some base ->
  (forall p, (forall i, p <> sheet_path output_dir base i) -> exists e, open p = Err e) ->
  be_tempdir benv = Ok tt ->
  be_write benv (batch_yaml (test_cases runner)) = Ok tt ->
  be_forge benv (batch_yaml (test_cases runner)) = Ok o ->
  status_success o = true ->
  exists m,
    ((exists e, m = ("CSV conversion failed: " ++ e)%string) \/
     (exists e, m = ("Failed to open CSV: " ++ e)%string)) /\
    run_batch benv runner
    = (map skip_result (skip_cases runner)
       ++ map (fun tc => fail_with tc m) (test_cases runner))%list.
Proof.
  intros Hc Hstem Hopen Ht Hw Hf Hs. unfold batch_convert in Hc.
  destruct (xlsx_to_csv ss xlsx_path output_dir) as [p|e] eqn:Hx.
  - destruct (xlsx_to_csv_ok _ _ _ _ Hx) as (base' & o' & Hstem' & _ & _ & ->).
    rewrite Hstem in Hstem'. inversion Hstem'; subst base'.
    destruct (Hopen (path_join output_dir (base ++ "_")) (prefix_not_sheet output_dir base))
      as [e He].
    rewrite He in Hc. exists ("Failed to open CSV: " ++ e)%string. split; [eauto|].
    rewrite (run_batch_pipeline benv runner o (Err e) Ht Hw Hf Hs Hc).
    rewrite batch_open_failure. reflexivity.
  - exists ("CSV conversion failed: " ++ e)%string. split; [eauto|].
    unfold run_batch. destruct (test_cases runner) as [|tc0 tcs0].
    + simpl. rewrite app_nil_r. reflexivity.
    + rewrite Ht, Hw, Hf, Hs, Hc. reflexivity.
Qed.

(** X6: [find_result_in_csv] on the lines of a file returns [Ok v]
    exactly when some row is the first with an accepted cell (a label
    followed by a number, or a number within [0.0001] of [expected]),
    every line before it reads without error, and the first accepted cell
    of that row yields [v]. *)
Theorem find_result_first_accepted (lines : list CsvLine) (expected v : f64) :
  find_result_in_csv (Ok lines) expected = Ok v <->
  exists pre line post i,
    lines = (map Ok pre ++ Ok line :: post)%list /\
    Forall (fun l => forall j w, ~ accepted_cell expected (split_cells l) j w) pre /\
    first_accepted expected (split_cells line) i v.
Proof.
  unfold find_result_in_csv. split.
  - intros Hv. pose proof (scan_lines_spec expected lines) as H. rewrite Hv in H. exact H.
  - intros (pre & line & post & i & -> & Hpre & Hfa).
    rewrite MatchProofs.scan_lines_skip by (apply scan_row_none_forall; exact Hpre).
    simpl. pose proof (scan_row_spec expected (split_cells line)) as Hr.
    destruct (scan_row expected (split_cells line)) as [w|].
    + destruct Hr as [i' Hi'].
      destruct (first_accepted_unique _ _ _ _ _ _ Hfa Hi') as [_ ->]. reflexivity.
    + exfalso. destruct Hfa as [Ha _]. exact (Hr i v Ha).
Qed.

(** X7: [find_result_in_csv] fails in three ways only: the file could not
    be opened (["Failed to open CSV: " ++ e]); a line could not be read
    before any row yielded a value (["Failed to read line: " ++ e]); or
    every line read and no cell of any row is accepted
    (["Could not find result in CSV output"]). *)
Theorem find_result_error_cases (csv : CsvSheet) (expected : f64) (m : string) :
  find_result_in_csv csv expected = Err m <->
  (exists e, csv = Err e /\ m = ("Failed to open CSV: " ++ e)%string) \/
  (exists pre e post, csv = Ok (map Ok pre ++ Err e :: post)%list /\
     Forall (fun l => forall i v, ~ accepted_cell expected (split_cells l) i v) pre /\
     m = ("Failed to read line: " ++ e)%string) \/
  (exists lines, csv = Ok (map Ok lines) /\ m = "Could not find result in CSV output" /\
     forall line, In line lines -> forall i v, ~ accepted_cell expected (split_cells line) i v).
Proof.
  split.
  - destruct csv as [lines|e]; simpl.
    + intros Hm. pose proof (scan_lines_spec expected lines) as H. rewrite Hm in H.
      destruct H as [(pre & err & post & -> & Hpre & ->)|(ls & -> & -> & Hls)].
      * right. left. exists pre, err, post. auto.
      * right. right. exists ls. split; [reflexivity|]. split; [reflexivity|].
        intros line Hl. rewrite Forall_forall in Hls. exact (Hls line Hl).
    + intros Hm. inversion Hm; subst. left. exists e. auto.
  - intros [(e & -> & ->)|[(pre & e & post & -> & Hpre & ->)|(ls & -> & -> & Hls)]]; simpl.
    + reflexivity.
    + rewrite MatchProofs.scan_lines_skip by (apply scan_row_none_forall; exact Hpre).
      reflexivity.
    + rewrite <- (app_nil_r (map Ok ls)).
      rewrite MatchProofs.scan_lines_skip; [reflexivity|].
      apply scan_row_none_forall. apply Forall_forall. exact Hls.
Qed.

(** X8: no cell [split_cells] produces contains a comma, so the comma
    removal applied before every number parse never changes a cell. *)
Theorem split_cells_comma_free (line cell : string) :
  In cell (split_cells line) ->
  ~ In ","%char (list_ascii_of_string cell) /\ remove_commas cell = cell.
Proof.
  intros H. pose proof (split_cells_no_comma line cell H) as Hc.
  split; [exact Hc|apply remove_commas_id; exact Hc].
Qed.

(** X9: the labels [run_batch] writes ([test_<i>], which the export may
    show as [assumptions.test_<i>]) are read back by [parse_batch_csv]'s
    line loop as slot [i] when [i < count]: a row holding such a label and
    a clean numeric cell supplies slot [i] with that number. *)
Theorem batch_label_round_trip (count i : nat) (cell : string) (v : f64) :
  i < count ->
  (Z.of_nat i < 2 ^ 64)%Z ->
  split_cells cell = [cell] ->
  parse_f64 cell = Some v ->
  batch_line_entry count ("test_" ++ z_to_string (Z.of_nat i) ++ "," ++ cell) = Some (i, v) /\
  batch_line_entry count ("assumptions.test_" ++ z_to_string (Z.of_nat i) ++ "," ++ cell)
  = Some (i, v).
Proof.
  intros Hi H64 Hcell Hv.
  split; apply batch_label_entry; auto; reflexivity.
Qed.

(** X10: on success, [xlsx_to_csv_all_sheets] returns the sheet files
    [<output_dir>/<stem>_0.csv], [<stem>_1.csv], ... in index order: one
    to ten of them, all existing, and, when fewer than ten, the next one
    does not exist. *)
Theorem all_sheets_consecutive (env : SsEnv) (xlsx_path output_dir : string) (files : list string) :
  xlsx_to_csv_all_sheets env xlsx_path output_dir = Ok files ->
  exists base k,
    file_stem xlsx_path = Some base /\ 1 <= k <= 10 /\
    files = map (sheet_path output_dir base) (seq 0 k) /\
    Forall (fun p => ss_exists env p = true) files /\
    (k < 10 -> ss_exists env (sheet_path output_dir base k) = false).
Proof.
  unfold xlsx_to_csv_all_sheets. destruct (file_stem xlsx_path) as [base|]; [|discriminate].
  destruct (ss_output env) as [o|]; [|discriminate].
  destruct (negb (status_success o)); [discriminate|].
  destruct (probe_sheets_spec env output_dir base 0 10) as (k & Hk & Heq & Hall & Hlast).
  rewrite Heq. destruct k as [|k']; [discriminate|].
  cbn [seq map]. intros H. inversion H; subst files.
  exists base, (S k'). split; [reflexivity|]. split; [lia|]. split; [reflexivity|]. split.
  - apply Forall_forall. intros p Hp.
    change (sheet_path output_dir base 0 :: map (sheet_path output_dir base) (seq 1 k'))
      with (map (sheet_path output_dir base) (seq 0 (S k'))) in Hp.
    apply in_map_iff in Hp as [j [<- Hj]]. apply in_seq in Hj. apply Hall. lia.
  - exact Hlast.
Qed.

(** X11: the path [xlsx_to_csv] returns on success is
    [<output_dir>/<stem>_], which differs from every sheet file
    [<output_dir>/<stem>_<i>.csv] that [ssconvert -S] writes. *)
Theorem batch_csv_path_is_no_sheet (env : SsEnv) (xlsx_path output_dir p : string) :
  xlsx_to_csv env xlsx_path output_dir = Ok p ->
  exists base,
    file_stem xlsx_path = Some base /\ p = path_join output_dir (base ++ "_") /\
    forall i, p <> sheet_path output_dir base i.
Proof.
  intros H. destruct (xlsx_to_csv_ok _ _ _ _ H) as (base & o & Hs & _ & _ & ->).
  exists base. split; [exact Hs|]. split; [reflexivity|]. apply prefix_not_sheet.
Qed.

(** X12: [TestRunner::new] on an existing directory whose reads all
    succeed holds the cases, then the skips, of the YAML files under it,
    file by file in the order the directory listing yields them (a file
    that does not parse adds nothing); any failing [read_dir], directory
    entry or YAML read makes it fail; a missing directory is an error
    naming it. *)
Theorem loader_collects_yaml_files (parse_spec : string -> option TestSpec)
    (tests_dir : string) (l : FsListing) :
  (forall fs, listing_yaml_files tests_dir l = Some fs ->
     new_runner parse_spec tests_dir true l
     = Ok (mkTestRunner (flat_map (file_cases parse_spec) fs)
                        (flat_map (file_skips parse_spec) fs))) /\
  (listing_yaml_files tests_dir l = None ->
     exists e, new_runner parse_spec tests_dir true l = Err e) /\
  new_runner parse_spec tests_dir false l = Err ("Tests directory does not exist: " ++ tests_dir).
Proof.
  destruct (load_spec parse_spec) as [_ [Hl _]]. specialize (Hl l tests_dir ([], [])).
  unfold new_runner, load_test_cases. split; [|split].
  - intros fs Hfs. rewrite Hfs in Hl. cbn [negb]. rewrite Hl. reflexivity.
  - intros Hn. rewrite Hn in Hl. destruct Hl as [e He]. exists e.
    cbn [negb]. rewrite He. reflexivity.
  - reflexivity.
Qed.

(** X13: [main] runs the forge binary given by [--binary], else by
    [FORGE_BIN], else [../forge/target/release/forge]; it goes on exactly
    when that path exists, and otherwise stops with one of its two
    messages. *)
Theorem forge_binary_choice (cli_binary forge_bin_var : option string)
    (path_exists : string -> bool) :
  (forall fb,
     find_forge_binary cli_binary forge_bin_var path_exists = Ok fb <->
     fb = match cli_binary with
          | Some b => b
          | None => match forge_bin_var with Some v => v | None => RELATIVE_FORGE end
          end /\ path_exists fb = true) /\
  (forall m,
     find_forge_binary cli_binary forge_bin_var path_exists = Err m ->
     (cli_binary = None /\ forge_bin_var = None /\ path_exists RELATIVE_FORGE = false /\
      m = "Forge binary not found. Set FORGE_BIN or use --binary, or build forge at ../forge/")
     \/ (exists fb, m = ("Forge binary not found: " ++ fb)%string /\ path_exists fb = false)).
Proof.
  unfold find_forge_binary.
  destruct cli_binary as [b|];
    [|destruct forge_bin_var as [v|]; [|destruct (path_exists RELATIVE_FORGE) eqn:Hr]].
  - destruct (path_exists b) eqn:Hb; simpl; split.
    + intros fb. split; [intros H; inversion H; subst; auto|intros [-> _]; reflexivity].
    + intros m H. discriminate.
    + intros fb. split; [discriminate|intros [-> H]; congruence].
    + intros m H. inversion H. right. exists b. auto.
  - destruct (path_exists v) eqn:Hv; simpl; split.
    + intros fb. split; [intros H; inversion H; subst; auto|intros [-> _]; reflexivity].
    + intros m H. discriminate.
    + intros fb. split; [discriminate|intros [-> H]; congruence].
    + intros m H. inversion H. right. exists v. auto.
  - rewrite Hr. simpl. split.
    + intros fb. split; [intros H; inversion H; subst; auto|intros [-> _]; reflexivity].
    + intros m H. discriminate.
  - simpl. split.
    + intros fb. split; [discriminate|intros [-> H]; congruence].
    + intros m H. inversion H. left. auto.
Qed.

(** X14: every case [extract_test_cases] returns comes from an entry of
    a non-reserved ScalarGroup section with no [skip] and with both
    [formula] and [expected]: it is named [<section>.<entry>], carries
    them, the source file and the spec's forge version. *)
Theorem extracted_case_origin (spec : TestSpec) (src : option string) (tc : TestCase) :
  In tc (extract_test_cases spec src) ->
  exists sname scalars n sc f e,
    In (sname, ScalarGroup scalars) (sections spec) /\ reserved_section sname = false /\
    In (n, sc) scalars /\ skip sc = None /\ formula sc = Some f /\ expected sc = Some e /\
    tc = mkTestCase (qualified sname n) f e src (forge_version spec).
Proof.
  unfold extract_test_cases. intros H. apply in_flat_map in H as [[sname sec] [Hsec H]].
  destruct (reserved_section sname) eqn:Hres; [destruct H|].
  destruct sec as [scalars|cols]; [|destruct H].
  apply in_flat_map in H as [[n sc] [Hent H]]. simpl in H.
  destruct (skip sc) eqn:Hsk; [destruct H|].
  destruct (formula sc) as [f|] eqn:Hf; [|destruct H].
  destruct (expected sc) as [e|] eqn:He; [|destruct H].
  destruct H as [<-|[]]. exists sname, scalars, n, sc, f, e. auto 10.
Qed.

(** X15: every SkipCase [extract_skip_cases] returns comes from an entry
    of a non-reserved ScalarGroup section whose [skip] is set: it is named
    [<section>.<entry>] and carries that reason. *)
Theorem extracted_skip_origin (spec : TestSpec) (sk : SkipCase) :
  In sk (extract_skip_cases spec) ->
  exists sname scalars n sc r,
    In (sname, ScalarGroup scalars) (sections spec) /\ reserved_section sname = false /\
    In (n, sc) scalars /\ skip sc = Some r /\ sk = mkSkipCase (qualified sname n) r.
Proof.
  unfold extract_skip_cases. intros H. apply in_flat_map in H as [[sname sec] [Hsec H]].
  destruct (reserved_section sname) eqn:Hres; [destruct H|].
  destruct sec as [scalars|cols]; [|destruct H].
  apply in_flat_map in H as [[n sc] [Hent H]]. simpl in H.
  destruct (skip sc) as [r|] eqn:Hsk; [|destruct H].
  destruct H as [<-|[]]. exists sname, scalars, n, sc, r. auto 10.
Qed.

(** X16: [find_yaml_files] lists exactly the YAML files the loader reads,
    in the same order, whenever the loader's reads succeed; when it fails,
    so does the loader. *)
Theorem find_yaml_files_matches_loader (dir : string) (l : FsListing) :
  (forall fs, listing_yaml_files dir l = Some fs -> find_yaml_listing dir l = Ok (map fst fs)) /\
  (forall e, find_yaml_listing dir l = Err e -> listing_yaml_files dir l = None).
Proof.
  destruct find_yaml_spec as [_ [H _]]. specialize (H l dir). split.
  - intros fs Hfs. rewrite Hfs in H. exact H.
  - intros e He. destruct (listing_yaml_files dir l) as [fs|]; [|reflexivity].
    rewrite H in He. discriminate.
Qed.

(** X17: the error of a [run_test] result is one of the pipeline
    messages or ["Could not find result in any CSV sheet"]; a sheet that
    cannot be opened or read is never reported as such. *)
Theorem run_test_error_messages (env : CaseEnv) (tc : TestCase) (m : string) :
  result_error (run_test env tc) = Some m ->
  (exists e, m = ("Failed to create temp dir: " ++ e)%string) \/
  (exists e, m = ("Failed to write YAML: " ++ e)%string) \/
  (exists e, m = ("Failed to run forge: " ++ e)%string) \/
  (exists e, m = ("forge export failed: " ++ e)%string) \/
  (exists e, m = ("CSV conversion failed: " ++ e)%string) \/
  m = "Could not find result in any CSV sheet".
Proof. apply run_test_errors. Qed.

(** X18: [run_test] fails with ["Could not find result in any CSV sheet"]
    exactly when the whole pipeline succeeds and [find_result_in_csv]
    fails on every converted sheet. *)
Theorem run_test_no_sheet_matches (env : CaseEnv) (tc : TestCase) :
  run_test env tc = fail_with tc "Could not find result in any CSV sheet" <->
  exists o files,
    ce_tempdir env = Ok tt /\ ce_write env (run_test_yaml env tc) = Ok tt /\
    ce_forge env (run_test_yaml env tc) = Ok o /\ status_success o = true /\
    ce_convert_all env = Ok files /\
    Forall (fun c => exists e, find_result_in_csv c (tc_expected tc) = Err e) files.
Proof.
  unfold run_test. cbv zeta. split.
  - intros H.
    destruct (ce_tempdir env) as [[]|e];
      [|apply (f_equal result_error) in H; simpl in H; congruence].
    destruct (ce_write env (run_test_yaml env tc)) as [[]|e];
      [|apply (f_equal result_error) in H; simpl in H; congruence].
    destruct (ce_forge env (run_test_yaml env tc)) as [o|e];
      [|apply (f_equal result_error) in H; simpl in H; congruence].
    destruct (status_success o) eqn:Hs;
      [|apply (f_equal result_error) in H; simpl in H; congruence].
    destruct (ce_convert_all env) as [files|e];
      [|apply (f_equal result_error) in H; simpl in H; congruence].
    exists o, files. repeat split; auto. apply search_sheets_none. exact H.
  - intros (o & files & Ht & Hw & Hf & Hs & Hc & Hall).
    rewrite Ht, Hw, Hf, Hs, Hc. cbn [negb]. apply search_sheets_none. exact Hall.
Qed.

(** X19: the summary of [run_all_mode], in both modes: the skipped count
    is the number of SkipCases, passed plus failed is the number of test
    cases, the three add up to [total_tests], and the exit status is 0
    exactly when every test case passed. *)
Theorem summary_matches_runner {St : Type} (print_result : St -> TestResult -> St) (st0 : St)
    (envs : nat -> CaseEnv) (benv : BatchEnv) (runner : TestRunner) (batch : bool) :
  let results := run_all_mode_results print_result st0 envs benv runner batch in
  let '(passed, failed, skipped) := summary_counts results in
  skipped = length (skip_cases runner) /\
  passed + failed = length (test_cases runner) /\
  passed + failed + skipped = total_tests runner /\
  (exit_code results = 0 <-> passed = length (test_cases runner)).
Proof.
  intros results.
  assert (Hv : exists rest,
             results = (map skip_result (skip_cases runner) ++ rest)%list /\
             Forall2 verdict (test_cases runner) rest).
  { unfold results, run_all_mode_results. destruct batch.
    - apply run_batch_shape; [apply judge_verdict|apply fail_with_verdict].
    - rewrite streaming_is_run_all. cbn [fst]. apply run_all_shape. apply run_test_verdict. }
  destruct Hv as [rest [Heq H]]. clearbody results. subst results.
  exact (summary_of_shape runner rest H).
Qed.

End Extras.

(** ** Instances of the further properties on concrete inputs *)

Module ExtraWitnesses.

Import Extras.

Local Open Scope nat_scope.

Lemma batch_unopenable_csv_fails_every_case_witness :
  let tc := mkTestCase "assumptions.a" "=1+1" (of_decimal false 2 0) None "1.0.0" in
  let runner := mkTestRunner [tc] [mkSkipCase "assumptions.s" "not supported"] in
  let o := mkForgeOutput true EmptyString in
  let env := mkBatchEnv (Ok tt) (fun _ => Ok tt) (fun _ => Ok o) (Ok (Err "No such file")) in
  run_batch env runner
  = (map skip_result (skip_cases runner)
     ++ map (fun tc => fail_with tc ("Failed to open CSV: " ++ "No such file"))
            (test_cases runner))%list.
Proof.
  intros tc runner o env.
  apply (batch_unopenable_csv_fails_every_case env runner o "No such file"); reflexivity.
Defined.

Lemma batch_never_reports_missing_slot_witness :
  let tc := mkTestCase "assumptions.a" "=1+1" (of_decimal false 2 0) None "1.0.0" in
  let runner := mkTestRunner [tc] [mkSkipCase "assumptions.s" "not supported"] in
  let o := mkForgeOutput true EmptyString in
  let env := mkBatchEnv (Ok tt) (fun _ => Ok tt) (fun _ => Ok o) (Ok (Ok [])) in
  let x := fail_with tc MISSING in
  In x (run_batch env runner) /\ result_error x <> Some "Missing result in CSV".
Proof.
  intros tc runner o env x.
  assert (H : In x (run_batch env runner)) by (vm_compute; right; left; reflexivity).
  split; [exact H|].
  apply (batch_never_reports_missing_slot env runner x). exact H.
Defined.

Lemma batch_reads_no_sheet_file_witness :
  let tc := mkTestCase "assumptions.a" "=1+1" (of_decimal false 2 0) None "1.0.0" in
  let runner := mkTestRunner [tc] [] in
  let o := mkForgeOutput true EmptyString in
  let ss := mkSsEnv (Ok o) (fun _ => true) in
  let benv := mkBatchEnv (Ok tt) (fun _ => Ok tt) (fun _ => Ok o)
                (batch_convert ss
                   (fun p => if String.eqb p "/tmp/w/batch_0.csv"
                             then Ok ["assumptions.test_0,2"] else Err "No such file")
                   "/tmp/w/batch.xlsx" "/tmp/w") in
  exists m,
    ((exists e, m = ("CSV conversion failed: " ++ e)%string) \/
     (exists e, m = ("Failed to open CSV: " ++ e)%string)) /\
    run_batch benv runner
    = (map skip_result (skip_cases runner)
       ++ map (fun tc => fail_with tc m) (test_cases runner))%list.
Proof.
  intros tc runner o ss benv.
  apply (batch_reads_no_sheet_file benv ss
           (fun p => if String.eqb p "/tmp/w/batch_0.csv"
                     then Ok ["assumptions.test_0,2"] else Err "No such file")
           "/tmp/w/batch.xlsx" "/tmp/w" "batch" runner o).
  - reflexivity.
  - vm_compute. reflexivity.
  - intros p Hp. destruct (String.eqb_spec p "/tmp/w/batch_0.csv") as [->|Hne].
    + exfalso. apply (Hp 0). vm_compute. reflexivity.
    + exists "No such file". reflexivity.
  - reflexivity.
  - reflexivity.
  - reflexivity.
  - reflexivity.
Defined.

Lemma split_cells_comma_free_witness :
  In "2" (split_cells "result,2") /\
  ~ In ","%char (list_ascii_of_string "2") /\ remove_commas "2" = "2".
Proof.
  assert (H : In "2" (split_cells "result,2")) by (vm_compute; right; left; reflexivity).
  split; [exact H|]. apply (split_cells_comma_free "result,2" "2"). exact H.
Defined.

Lemma batch_label_round_trip_witness :
  batch_line_entry 3 ("test_" ++ z_to_string (Z.of_nat 1) ++ "," ++ "42")
  = Some (1, of_decimal false 42 0) /\
  batch_line_entry 3 ("assumptions.test_" ++ z_to_string (Z.of_nat 1) ++ "," ++ "42")
  = Some (1, of_decimal false 42 0).
Proof.
  apply (batch_label_round_trip 3 1 "42" (of_decimal false 42 0)).
  - lia.
  - vm_compute. reflexivity.
  - vm_compute. reflexivity.
  - vm_compute. reflexivity.
Defined.

Lemma all_sheets_consecutive_witness :
  let env := mkSsEnv (Ok (mkForgeOutput true EmptyString))
               (fun p => String.eqb p "/tmp/w/t_0.csv" || String.eqb p "/tmp/w/t_1.csv") in
  exists base k,
    file_stem "/tmp/w/t.xlsx" = Some base /\ 1 <= k <= 10 /\
    ["/tmp/w/t_0.csv"; "/tmp/w/t_1.csv"] = map (sheet_path "/tmp/w" base) (seq 0 k) /\
    Forall (fun p => ss_exists env p = true) ["/tmp/w/t_0.csv"; "/tmp/w/t_1.csv"] /\
    (k < 10 -> ss_exists env (sheet_path "/tmp/w" base k) = false).
Proof.
  intros env. apply (all_sheets_consecutive env). vm_compute. reflexivity.
Defined.

Lemma batch_csv_path_is_no_sheet_witness :
  exists base,
    file_stem "/tmp/w/t.xlsx" = Some base /\ "/tmp/w/t_" = path_join "/tmp/w" (base ++ "_") /\
    forall i, "/tmp/w/t_" <> sheet_path "/tmp/w" base i.
Proof.
  apply (batch_csv_path_is_no_sheet (mkSsEnv (Ok (mkForgeOutput true EmptyString)) (fun _ => true))
           "/tmp/w/t.xlsx" "/tmp/w" "/tmp/w/t_").
  vm_compute. reflexivity.
Defined.

Lemma loader_collects_yaml_files_witness :
  let spec := mkTestSpec "1.0.0"
                [("assumptions", ScalarGroup [("a", mkScalar None (Some "=1+1")
                                                       (Some (of_decimal false 2 0)) None)])] in
  let ps := fun _ : string => Some spec in
  let l := Listed (Entry (FsFile "a.yaml" (Ok "text"))
                         (Entry (FsFile "notes.txt" (Ok "x")) NoMore)) in
  new_runner ps "tests" true l
  = Ok (mkTestRunner (flat_map (file_cases ps) [("tests/a.yaml", "text")])
                     (flat_map (file_skips ps) [("tests/a.yaml", "text")])).
Proof.
  intros spec ps l. apply (proj1 (loader_collects_yaml_files ps "tests" l)).
  vm_compute. reflexivity.
Defined.

Lemma forge_binary_choice_witness :
  find_forge_binary None (Some "/opt/forge") (fun p => String.eqb p "/opt/forge")
  = Ok "/opt/forge" /\
  ((None : option string) = None /\ (None : option string) = None /\
   (fun _ : string => false) RELATIVE_FORGE = false /\
   "Forge binary not found. Set FORGE_BIN or use --binary, or build forge at ../forge/"
   = "Forge binary not found. Set FORGE_BIN or use --binary, or build forge at ../forge/"
   \/ (exists fb, "Forge binary not found. Set FORGE_BIN or use --binary, or build forge at ../forge/"
                  = ("Forge binary not found: " ++ fb)%string /\ (fun _ : string => false) fb = false)).
Proof.
  split.
  - apply (proj1 (forge_binary_choice None (Some "/opt/forge")
                    (fun p => String.eqb p "/opt/forge")) "/opt/forge").
    split; reflexivity.
  - apply (proj2 (forge_binary_choice None None (fun _ => false))). reflexivity.
Defined.

Lemma extracted_case_origin_witness :
  let spec := mkTestSpec "1.0.0"
                [("assumptions", ScalarGroup [("a", mkScalar None (Some "=1+1")
                                                       (Some (of_decimal false 2 0)) None)])] in
  let tc := mkTestCase "assumptions.a" "=1+1" (of_decimal false 2 0) None "1.0.0" in
  In tc (extract_test_cases spec None) /\
  exists sname scalars n sc f e,
    In (sname, ScalarGroup scalars) (sections spec) /\ reserved_section sname = false /\
    In (n, sc) scalars /\ skip sc = None /\ formula sc = Some f /\ expected sc = Some e /\
    tc = mkTestCase (qualified sname n) f e None (forge_version spec).
Proof.
  intros spec tc.
  assert (H : In tc (extract_test_cases spec None)) by (vm_compute; left; reflexivity).
  split; [exact H|]. apply (extracted_case_origin spec None tc). exact H.
Defined.

Lemma extracted_skip_origin_witness :
  let spec := mkTestSpec "1.0.0"
                [("assumptions", ScalarGroup [("s", mkScalar None None None (Some "no RAND"))])] in
  let sk := mkSkipCase "assumptions.s" "no RAND" in
  In sk (extract_skip_cases spec) /\
  exists sname scalars n sc r,
    In (sname, ScalarGroup scalars) (sections spec) /\ reserved_section sname = false /\
    In (n, sc) scalars /\ skip sc = Some r /\ sk = mkSkipCase (qualified sname n) r.
Proof.
  intros spec sk.
  assert (H : In sk (extract_skip_cases spec)) by (vm_compute; left; reflexivity).
  split; [exact H|]. apply (extracted_skip_origin spec sk). exact H.
Defined.

Lemma find_yaml_files_matches_loader_witness :
  let l := Listed (Entry (FsFile "a.yaml" (Ok "text"))
                         (Entry (FsDir "sub" (Listed (Entry (FsFile "b.yaml" (Ok "more")) NoMore)))
                                NoMore)) in
  find_yaml_listing "tests" l = Ok (map fst [("tests/a.yaml", "text"); ("tests/sub/b.yaml", "more")]).
Proof.
  intros l. apply (proj1 (find_yaml_files_matches_loader "tests" l)). vm_compute. reflexivity.
Defined.

Lemma run_test_error_messages_witness :
  let tc := mkTestCase "assumptions.a" "=1+1" (of_decimal false 2 0) None "1.0.0" in
  let env := mkCaseEnv None (Err "denied") (fun _ => Ok tt)
                       (fun _ => Ok (mkForgeOutput true EmptyString)) (Ok []) in
  (exists e, "Failed to create temp dir: denied" = ("Failed to create temp dir: " ++ e)%string) \/
  (exists e, "Failed to create temp dir: denied" = ("Failed to write YAML: " ++ e)%string) \/
  (exists e, "Failed to create temp dir: denied" = ("Failed to run forge: " ++ e)%string) \/
  (exists e, "Failed to create temp dir: denied" = ("forge export failed: " ++ e)%string) \/
  (exists e, "Failed to create temp dir: denied" = ("CSV conversion failed: " ++ e)%string) \/
  "Failed to create temp dir: denied" = "Could not find result in any CSV sheet".
Proof.
  intros tc env. apply (run_test_error_messages env tc). reflexivity.
Defined.

End ExtraWitnesses.
